(** * ra-clients: the batching uploader of [raclients]

    A shallow embedding of [raclients/modelclientbase.py] (the abstract
    [ModelClientBase]) and [raclients/mo/modelclient.py] (the OS2mo
    [ModelClient]), with the properties of the uploader stated over it.

    Python coroutines are embedded as state transformers over a [world]
    that records what the client did (sessions opened and closed, requests
    issued, delays awaited, progress-bar events).  An exception leaves the
    world as it was when it was raised, so a computation returns a
    [result] together with the new world. *)

From Stdlib Require Import String ZArith Bool Arith Lia List Permutation.
Import ListNotations.
Local Open Scope string_scope.
Local Open Scope list_scope.
Set Warnings "-register-all".

(** ** Values exchanged with the backend *)

(** What [response.json()] decodes to.  A [JObj] stands for a Python
    [dict]: keys are looked up from the left. *)
Inductive json : Type :=
| JNull
| JBool (b : bool)
| JNum (z : Z)
| JStr (s : string)
| JArr (items : list json)
| JObj (fields : list (string * json)).

(** What [response.json()] finds in a response: a text served as JSON
    that decodes to [value] (an empty text decodes to [JNull]), a text
    served as JSON that does not decode, or a [Content-Type] header that
    is not one of JSON, [content_type] being the header in lower case. *)
Inductive content : Type :=
| Json (value : json)
| BadJson
| NotJson (content_type : string).

(** An HTTP response as the client inspects it. *)
Record response : Type := mkResponse {
  status : Z;
  reason : string;
  served : content
}.

(** The decoded body of a response that is JSON. *)
Definition body (r : response) : option json :=
  match served r with
  | Json value => Some value
  | _ => None
  end.

(** ** Exceptions *)

(** The exceptions the two modules raise or let through, by their Python
    class.  [ClientError] stands for aiohttp's network-layer failures,
    [ClientResponseError] is what [raise_for_status] raises,
    [ContentTypeError] (in aiohttp a kind of [ClientResponseError]) is what
    [response.json()] raises for a response that is not served as JSON,
    [RuntimeError] is what a closed session answers a request with, and
    [RetryError] is tenacity's wrapper around the last failed attempt. *)
Inductive exn : Type :=
| Exception (msg : string)
| TypeError (msg : string)
| KeyError (key : string)
| ValueError (msg : string)
| IndexError (msg : string)
| RuntimeError (msg : string)
| AssertionError
| ClientError (msg : string)
| JSONDecodeError
| ContentTypeError (code : Z) (message : string)
| ClientResponseError (code : Z) (message : json)
| RetryError (last_attempt : exn).

(** The names the specification gives to the errors of the code. *)
Definition NotInitializedError : exn :=
  Exception "Need to initialize client session!".
Definition UnknownTypeError (type_repr : string) : exn :=
  TypeError (String.append "unknown type: " type_repr).
Definition BackendValidationError (code : Z) (message : json) : exn :=
  ClientResponseError code message.

Inductive result (A : Type) : Type :=
| Ok (a : A)
| Err (e : exn).
Arguments Ok {A} a.
Arguments Err {A} e.

Definition is_ok {A} (r : result A) : bool :=
  match r with Ok _ => true | Err _ => false end.

(** ** The world *)

Inductive pbar_event : Type :=
| PbarOpen (total : nat) (disable : bool)
| PbarDescription (desc : string)
| PbarUpdate (n : nat)
| PbarClose.

(** The [TCPConnector] the client builds in [__init__] and hands to every
    session of its factory, aiohttp's [ClientSession] unless the caller
    gives another: it is open, with the sessions that are open on it, or
    closed.  A session owns its connector, so closing one session closes
    the connector and with it every session built on it, those built
    later included. *)
Inductive connector : Type :=
| Open (sessions : list nat)
| Closed.

(** [_session] is the client's attribute [self._session]: a session is a
    number, the order in which the factory built it.  [created] counts
    the sessions built so far; [peak_open] is a history variable, the
    largest number of sessions that were open at once.  [posts] and [gets]
    are the requests the client asked a session for, oldest first (a
    closed session refuses them). *)
Record world : Type := mkWorld {
  _session : option nat;
  tcp_connector : connector;
  created : nat;
  peak_open : nat;
  posts : list (string * json);
  gets : list string;
  sleeps : list Z;
  printed : list exn;
  pbar : list pbar_event
}.

(** The sessions built and not closed. *)
Definition open_sessions (w : world) : list nat :=
  match tcp_connector w with
  | Open sessions => sessions
  | Closed => []
  end.

(** [connector.closed] *)
Definition connector_closed (w : world) : bool :=
  match tcp_connector w with
  | Open _ => false
  | Closed => true
  end.

(** [session.closed]: the session was closed or its connector is. *)
Definition closed (session : nat) (w : world) : bool :=
  negb (existsb (Nat.eqb session) (open_sessions w)).

Definition set_session (s : option nat) (w : world) : world :=
  mkWorld s (tcp_connector w) (created w) (peak_open w) (posts w) (gets w)
          (sleeps w) (printed w) (pbar w).

Definition set_connector (c : connector) (w : world) : world :=
  mkWorld (_session w) c (created w) (peak_open w) (posts w) (gets w)
          (sleeps w) (printed w) (pbar w).

(** [self._session_factory()] followed by [__aenter__]: a new session on
    the client's connector; on a closed connector it is closed from the
    start. *)
Definition open_session (w : world) : nat * world :=
  let s := created w in
  let c := match tcp_connector w with
           | Open sessions => Open (s :: sessions)
           | Closed => Closed
           end in
  let live := match c with Open sessions => sessions | Closed => [] end in
  (s, mkWorld (_session w) c (S s) (Nat.max (peak_open w) (length live))
              (posts w) (gets w) (sleeps w) (printed w) (pbar w)).

(** The session's [__aexit__], that is [session.close()]: unless the
    session is closed already, its connector is closed. *)
Definition close_session (s : nat) (w : world) : world :=
  if closed s w then w else set_connector Closed w.

Definition log_post (url : string) (payload : json) (w : world) : world :=
  mkWorld (_session w) (tcp_connector w) (created w) (peak_open w)
          (posts w ++ [(url, payload)]) (gets w) (sleeps w) (printed w) (pbar w).

Definition log_get (url : string) (w : world) : world :=
  mkWorld (_session w) (tcp_connector w) (created w) (peak_open w) (posts w)
          (gets w ++ [url]) (sleeps w) (printed w) (pbar w).

Definition log_sleep (delay : Z) (w : world) : world :=
  mkWorld (_session w) (tcp_connector w) (created w) (peak_open w) (posts w)
          (gets w) (sleeps w ++ [delay]) (printed w) (pbar w).

Definition log_print (e : exn) (w : world) : world :=
  mkWorld (_session w) (tcp_connector w) (created w) (peak_open w) (posts w)
          (gets w) (sleeps w) (printed w ++ [e]) (pbar w).

Definition log_pbar (ev : pbar_event) (w : world) : world :=
  mkWorld (_session w) (tcp_connector w) (created w) (peak_open w) (posts w)
          (gets w) (sleeps w) (printed w) (pbar w ++ [ev]).

(** ** Coroutines *)

Definition M (A : Type) : Type := world -> result A * world.

Definition ret {A} (a : A) : M A := fun w => (Ok a, w).
Definition raise {A} (e : exn) : M A := fun w => (Err e, w).
Definition bind {A B} (c : M A) (k : A -> M B) : M B :=
  fun w => match c w with
           | (Ok a, w') => k a w'
           | (Err e, w') => (Err e, w')
           end.
Definition lift {A} (r : result A) : M A := fun w => (r, w).
Definition effect (f : world -> world) : M unit := fun w => (Ok tt, f w).

Declare Scope coro_scope.
Delimit Scope coro_scope with coro.
Notation "x <- c ;; k" := (bind c (fun x => k))
  (at level 61, c at next level, right associativity) : coro_scope.
Notation "c ;; k" := (bind c (fun _ => k))
  (at level 61, right associativity) : coro_scope.
Local Open Scope coro_scope.

Definition sleep (delay : Z) : M unit := effect (log_sleep delay).
Definition print (e : exn) : M unit := effect (log_print e).

(** [await gather] of the tasks and [as_completed(tasks)] both start every task.
    The embedding runs the tasks one after the other in the order they
    were given, each to its end, which is one of the interleavings the
    event loop allows; no task is cancelled when another one fails. *)
Fixpoint run_all {A} (tasks : list (M A)) (w : world)
  : list (result A) * world :=
  match tasks with
  | [] => ([], w)
  | t :: tasks' =>
      let (r, w1) := t w in
      let (rs, w2) := run_all tasks' w1 in
      (r :: rs, w2)
  end.

(** The value of a [gather]: every result in the order of the tasks, or an
    exception of one of them (the first in task order). *)
Fixpoint collect {A} (rs : list (result A)) : result (list A) :=
  match rs with
  | [] => Ok []
  | Ok a :: rs' =>
      match collect rs' with
      | Ok l => Ok (a :: l)
      | Err e => Err e
      end
  | Err e :: _ => Err e
  end.

Definition gather {A} (tasks : list (M A)) : M (list A) :=
  fun w => let (rs, w') := run_all tasks w in (collect rs, w').

(** ** Library functions the client calls *)

(** [itertools.groupby]: maximal runs of consecutive elements with equal
    keys, each with its key. *)
Fixpoint groupby {A} (key : A -> string) (l : list A)
  : list (string * list A) :=
  match l with
  | [] => []
  | x :: l' =>
      match groupby key l' with
      | (k, g) :: rest =>
          if String.eqb (key x) k then (k, x :: g) :: rest
          else (key x, [x]) :: (k, g) :: rest
      | [] => [(key x, [x])]
      end
  end.

(** [more_itertools.chunked(iterable, n)]: [take(n, it)] again and again
    until it returns the empty list.  [fuel] bounds the number of chunks. *)
Fixpoint take_chunks {A} (fuel n : nat) (l : list A) : list (list A) :=
  match fuel with
  | O => []
  | S fuel' =>
      match firstn n l with
      | [] => []
      | c => c :: take_chunks fuel' n (skipn n l)
      end
  end.

(** [sys.maxsize] of a 64-bit build. *)
Definition maxsize : Z := 2 ^ 63 - 1.

(** [list(chunked(l, n))]: the first [take(n, it)] builds [islice(it, n)],
    which refuses an [n] below 0 or above [sys.maxsize]. *)
Definition chunked {A} (l : list A) (n : Z) : result (list (list A)) :=
  if (n <? 0)%Z || (maxsize <? n)%Z
  then Err (ValueError "Stop argument for islice() must be None or an integer: 0 <= x <= sys.maxsize.")
  else Ok (take_chunks (length l) (Z.to_nat n) l).

(** Python's [needle in value] for a string [needle] and a decoded JSON
    value: key membership in a dict, element membership in a list,
    substring of a string, and a [TypeError] for [None], a bool and a
    number. *)
Definition py_in (needle : string) (value : json) : result bool :=
  match value with
  | JObj fields => Ok (existsb (fun kv => String.eqb (fst kv) needle) fields)
  | JArr items =>
      Ok (existsb (fun j => match j with
                            | JStr s => String.eqb s needle
                            | _ => false
                            end) items)
  | JStr s => Ok (match index 0 needle s with Some _ => true | None => false end)
  | JNull => Err (TypeError "argument of type 'NoneType' is not iterable")
  | JBool _ => Err (TypeError "argument of type 'bool' is not iterable")
  | JNum _ => Err (TypeError "argument of type 'int' is not iterable")
  end.

(** Python's [value[key]] for a string [key]. *)
Definition py_getitem (value : json) (key : string) : result json :=
  match value with
  | JObj fields =>
      match find (fun kv => String.eqb (fst kv) key) fields with
      | Some kv => Ok (snd kv)
      | None => Err (KeyError key)
      end
  | JArr _ => Err (TypeError "list indices must be integers or slices, not str")
  | JStr _ => Err (TypeError "string indices must be integers")
  | _ => Err (TypeError "object is not subscriptable")
  end.

(** [response.raise_for_status()]: aiohttp raises for a status of 400 and
    above, with the reason phrase as message. *)
Definition raise_for_status (r : response) : result unit :=
  if (400 <=? status r)%Z
  then Err (ClientResponseError (status r) (JStr (reason r)))
  else Ok tt.

(** [await response.json()]: the [Content-Type] is checked first, then
    the text is decoded. *)
Definition response_json (r : response) : result json :=
  match served r with
  | NotJson content_type =>
      Err (ContentTypeError (status r)
             (String.append "Attempt to decode JSON with unexpected mimetype: "
                content_type))
  | BadJson => Err JSONDecodeError
  | Json value => Ok value
  end.

(** ** tenacity *)

(** [wait_exponential(multiplier, min, max)]: the delay after attempt
    [attempt_number] (counted from 1) is [multiplier * 2 ** (attempt_number - 1)],
    kept between [min] and [max]. *)
Definition wait_exponential (multiplier min max : Z) (attempt_number : nat) : Z :=
  Z.max (Z.max 0 min)
        (Z.min (multiplier * 2 ^ (Z.of_nat attempt_number - 1)) max).

(** [tenacity.wait.MAX_WAIT], [sys.maxsize / 2]. *)
Definition MAX_WAIT : Z := 2 ^ 62.

(** The loop of [@retry(wait=..., stop=stop_after_attempt(n))] with the
    defaults for the rest: every exception of an attempt is retried
    ([retry_if_exception_type()]), and when the stop condition holds the
    last exception is wrapped in a [RetryError] ([reraise=False]).
    [remaining] counts the attempts still allowed after this one. *)
Fixpoint retry_loop {A} (wait : nat -> Z) (remaining attempt_number : nat)
         (fn : M A) : M A :=
  fun w =>
    match fn w with
    | (Ok a, w') => (Ok a, w')
    | (Err e, w') =>
        match remaining with
        | O => (Err (RetryError e), w')
        | S remaining' =>
            retry_loop wait remaining' (S attempt_number) fn
                       (log_sleep (wait attempt_number) w')
        end
    end.

Definition retry {A} (wait : nat -> Z) (stop_after_attempt : nat) (fn : M A)
  : M A :=
  retry_loop wait (stop_after_attempt - 1) 1 fn.

(** [all_attempts_raise wait fn k n w last w']: started in [w], the [k]
    attempts numbered [n], [n + 1], ... of [fn] all raise, each followed by
    its delay except the last, which raises [last] and leaves [w']. *)
Inductive all_attempts_raise {A} (wait : nat -> Z) (fn : M A)
  : nat -> nat -> world -> exn -> world -> Prop :=
| last_attempt_raises n w last w' :
    fn w = (Err last, w') ->
    all_attempts_raise wait fn 1 n w last w'
| attempt_raises k n w e w1 last w' :
    fn w = (Err e, w1) ->
    all_attempts_raise wait fn (S k) (S n) (log_sleep (wait n) w1) last w' ->
    all_attempts_raise wait fn (S (S k)) n w last w'.

(** ** Reading a run *)

(** The amounts by which the progress counter was advanced, oldest first. *)
Fixpoint pbar_updates (events : list pbar_event) : list nat :=
  match events with
  | [] => []
  | PbarUpdate n :: events' => n :: pbar_updates events'
  | _ :: events' => pbar_updates events'
  end.

(** The items a finished task hands to the caller, none if it raised. *)
Definition items_of (r : result (list json)) : list json :=
  match r with
  | Ok items => items
  | Err _ => []
  end.

(** Neighbouring groups have different keys. *)
Fixpoint adjacent_keys_differ {A} (gs : list (string * list A)) : Prop :=
  match gs with
  | g1 :: gs' =>
      match gs' with
      | g2 :: _ => fst g1 <> fst g2
      | [] => True
      end /\ adjacent_keys_differ gs'
  | [] => True
  end.

(** * [raclients/modelclientbase.py] *)

Module ModelClientBase.
Section ModelClientBase.

(** ** The Python runtime the client runs in *)

(** [ty] are the classes and [obj] the objects handed to the client:
    [type_ x] is [type(x)], [type_name t] is [t.__name__], [type_repr t]
    is [str(t)] and [issubclass] the subclass test behind [isinstance]. *)
Variable ty : Type.
Variable obj : Type.
Variable ty_eqb : ty -> ty -> bool.
Variable type_ : obj -> ty.
Variable type_name : ty -> string.
Variable type_repr : ty -> string.
Variable issubclass : ty -> ty -> bool.

Definition isinstance (x : obj) (t : ty) : bool := issubclass (type_ x) t.

(** ** The environment *)

(** The backend answers a request sent to it with a response or the
    attempt fails in the network layer; the answer may depend on the
    requests seen so far. *)
Variable http_post : list (string * json) -> string -> json -> exn + response.
Variable http_get : list string -> string -> exn + response.

(** The order in which the tasks given to one [as_completed] finish:
    from their outcomes in task order to their outcomes in completion
    order. *)
Variable completion_order :
  list (result (list json)) -> list (result (list json)).

(** ** The client: [__init__] and the abstract methods *)

Variable _base_url : string.
Variable _chunk_size : Z.

Variable _get_healthcheck_tuples : list (string * string).
Variable _get_path_map : list (ty * string).
Variable _post_single_to_backend : ty -> obj -> M json.

(** [current_type in self._get_path_map()] *)
Definition in_path_map (t : ty) : bool :=
  existsb (fun kv => ty_eqb t (fst kv)) _get_path_map.

(** ** Session *)

Definition _verify_session : M nat :=
  fun w => match _session w with
           | None => (Err NotInitializedError, w)
           | Some session => (Ok session, w)
           end.

(** [await session.get(url)]: a closed session refuses the request, an
    open one sends it. *)
Definition session_get (session : nat) (url : string) : M response :=
  fun w => let w' := log_get url w in
           if closed session w then (Err (RuntimeError "Session is closed"), w')
           else match http_get (gets w) url with
                | inl e => (Err e, w')
                | inr r => (Ok r, w')
                end.

(** [session.post(url, json=payload)], entered. *)
Definition session_post (session : nat) (url : string) (payload : json)
  : M response :=
  fun w => let w' := log_post url payload w in
           if closed session w then (Err (RuntimeError "Session is closed"), w')
           else match http_post (posts w) url payload with
                | inl e => (Err e, w')
                | inr r => (Ok r, w')
                end.

(** The body of the [try] in [check_endpoint]. *)
Definition probe (session : nat) (url response : string) : M unit :=
  resp <- session_get session url ;;
  lift (raise_for_status resp) ;;
  decoded <- lift (response_json resp) ;;
  found <- lift (py_in response decoded) ;;
  if found : bool then ret tt else raise (Exception "Invalid response").

(** [for _ in range(attempts)]: a failed probe is printed and followed by
    a delay; when the attempts are used up the endpoint is given up. *)
Fixpoint check_endpoint (session attempts : nat) (delay : Z)
         (url response : string) : M unit :=
  match attempts with
  | O => raise (Exception "Unable to connect")
  | S attempts' =>
      fun w =>
        match probe session url response w with
        | (Ok _, w') => (Ok tt, w')
        | (Err exp, w') =>
            (print exp ;; sleep delay ;;
             check_endpoint session attempts' delay url response) w'
        end
  end.

Definition __check_if_server_online (attempts : nat) (delay : Z) : M unit :=
  session <- _verify_session ;;
  let healthcheck_tuples :=
    map (fun t => (String.append _base_url (fst t), snd t)) _get_healthcheck_tuples in
  let tasks :=
    map (fun t => check_endpoint session attempts delay (fst t) (snd t))
        healthcheck_tuples in
  gather tasks ;;
  ret tt.

(** [context]: the [async with] builds and enters a session on the
    client's connector, the handle is set and the backend probed; then
    the caller's [body] runs (the [yield]).  However the [async with] is
    left the session is closed, and the [finally] clears the handle. *)
Definition context {A} (body : M A) : M A :=
  fun w =>
    let (session, w1) := open_session w in
    let w2 := set_session (Some session) w1 in
    let (r, w3) := (__check_if_server_online 100 1 ;; body) w2 in
    let w4 := close_session session w3 in
    (r, set_session None w4).

(** ** Submission *)

Definition _post_to_backend (current_type : ty) (data : list obj)
  : M (list json) :=
  _verify_session ;;
  gather (map (fun x => _post_single_to_backend current_type x) data).

Definition _submit_chunk (data : list obj) : M (list json) :=
  match data with
  | [] => raise (IndexError "list index out of range")
  | x0 :: _ =>
      let current_type := type_ x0 in
      if negb (forallb (fun x => isinstance x current_type) data)
      then raise AssertionError
      else if negb (in_path_map current_type)
      then raise (UnknownTypeError (type_repr current_type))
      else _post_to_backend current_type data
  end.

(** [groupby(objs, lambda x: type(x).__name__)] *)
Definition groups (objs : list obj) : list (string * list obj) :=
  groupby (fun x => type_name (type_ x)) objs.

(** The comprehension building [chunked_groups]. *)
Fixpoint chunk_groups (gs : list (string * list obj))
  : result (list (string * list (list obj))) :=
  match gs with
  | [] => Ok []
  | (type_name, objs) :: gs' =>
      match chunked objs _chunk_size with
      | Err e => Err e
      | Ok chunks =>
          match chunk_groups gs' with
          | Err e => Err e
          | Ok rest => Ok ((type_name, chunks) :: rest)
          end
      end
  end.

(** [with tqdm(...) as pbar]: the bar is closed however the block ends. *)
Definition with_tqdm {A} (total : nat) (disable : bool) (block : M A) : M A :=
  fun w => let (r, w') := block (log_pbar (PbarOpen total disable) w) in
           (r, log_pbar PbarClose w').

(** [as_completed(tasks)]: the tasks are started; their outcomes come
    back in the order they finish. *)
Definition as_completed (tasks : list (M (list json)))
  : M (list (result (list json))) :=
  fun w => let (rs, w') := run_all tasks w in (Ok (completion_order rs), w').

(** [for f in as_completed(tasks)]: the first failed task ends the loop. *)
Fixpoint drain (fs : list (result (list json))) (results : list json)
  : M (list json) :=
  match fs with
  | [] => ret results
  | f :: fs' =>
      result <- lift f ;;
      effect (log_pbar (PbarUpdate (length result))) ;;
      drain fs' (results ++ result)
  end.

(** [for key, tasks in chunked_tasks] *)
Fixpoint upload (chunked_tasks : list (string * list (M (list json))))
         (results : list json) : M (list json) :=
  match chunked_tasks with
  | [] => ret results
  | (key, tasks) :: rest =>
      effect (log_pbar (PbarDescription (String.append "Uploading " key))) ;;
      fs <- as_completed tasks ;;
      results' <- drain fs results ;;
      upload rest results'
  end.

Definition is_empty {A} (l : list A) : bool :=
  match l with [] => true | _ => false end.

Definition _submit_payloads (objs : list obj) (disable_progressbar : bool)
  : M (list json) :=
  chunked_groups <- lift (chunk_groups (groups objs)) ;;
  let chunked_tasks :=
    map (fun g => (fst g, map _submit_chunk (snd g))) chunked_groups in
  if is_empty chunked_tasks
     || forallb (fun g => is_empty (snd g)) chunked_tasks
  then ret []
  else with_tqdm (length objs) disable_progressbar (upload chunked_tasks []).

(** The draining step as the specification words it, for comparison with
    [_submit_payloads]: the tasks of all types are given to a single
    [as_completed]. *)
Definition _submit_payloads_single_iterator (objs : list obj)
           (disable_progressbar : bool) : M (list json) :=
  chunked_groups <- lift (chunk_groups (groups objs)) ;;
  let chunked_tasks :=
    map (fun g => (fst g, map _submit_chunk (snd g))) chunked_groups in
  if is_empty chunked_tasks
     || forallb (fun g => is_empty (snd g)) chunked_tasks
  then ret []
  else with_tqdm (length objs) disable_progressbar
         (fs <- as_completed (flat_map snd chunked_tasks) ;; drain fs []).

End ModelClientBase.

Arguments isinstance {ty obj}.
Arguments in_path_map {ty}.
Arguments _post_to_backend {ty obj}.
Arguments _submit_chunk {ty obj}.
Arguments groups {ty obj}.
Arguments chunk_groups {obj}.
Arguments _submit_payloads {ty obj}.
Arguments _submit_payloads_single_iterator {ty obj}.
Arguments upload : clear implicits.

End ModelClientBase.

(** * [raclients/mo/modelclient.py] *)

Module ModelClient.

(** The classes of [ramodels.mo]; the client routes six of them. *)
Inductive mo_type : Type :=
| OrganisationUnit | Employee | Engagement | EngagementAssociation
| Manager | Address
| Association | FacetClass | ITUser | KLE | Leave | Role.

Definition mo_type_eqb (a b : mo_type) : bool :=
  match a, b with
  | OrganisationUnit, OrganisationUnit | Employee, Employee
  | Engagement, Engagement | EngagementAssociation, EngagementAssociation
  | Manager, Manager | Address, Address | Association, Association
  | FacetClass, FacetClass | ITUser, ITUser | KLE, KLE | Leave, Leave
  | Role, Role => true
  | _, _ => false
  end.

Definition type_name (t : mo_type) : string :=
  match t with
  | OrganisationUnit => "OrganisationUnit"
  | Employee => "Employee"
  | Engagement => "Engagement"
  | EngagementAssociation => "EngagementAssociation"
  | Manager => "Manager"
  | Address => "Address"
  | Association => "Association"
  | FacetClass => "FacetClass"
  | ITUser => "ITUser"
  | KLE => "KLE"
  | Leave => "Leave"
  | Role => "Role"
  end.

(** [str(t)], short of the module the class is defined in, which Python
    shows before the name. *)
Definition type_repr (t : mo_type) : string :=
  String.append "<class '" (String.append (type_name t) "'>").

(** None of these classes derives from another. *)
Definition issubclass (a b : mo_type) : bool := mo_type_eqb a b.

(** A model object: its class and its fields, which is also what
    [jsonable_encoder] makes of it. *)
Record mo_obj : Type := mkObj {
  mo_class : mo_type;
  mo_fields : list (string * json)
}.

Definition jsonable_encoder (x : mo_obj) : json := JObj (mo_fields x).

Section ModelClient.

Variable http_post : list (string * json) -> string -> json -> exn + response.
Variable http_get : list string -> string -> exn + response.
Variable completion_order :
  list (result (list json)) -> list (result (list json)).

Variable _base_url : string.
Variable _chunk_size : Z.
Variable force : bool.

Definition __mo_path_map : list (mo_type * string) :=
  [ (OrganisationUnit, "/service/ou/create");
    (Employee, "/service/e/create");
    (Engagement, "/service/details/create");
    (EngagementAssociation, "/service/details/create");
    (Manager, "/service/details/create");
    (Address, "/service/details/create") ].

Definition _get_healthcheck_tuples : list (string * string) :=
  [("/version/", "mo_version")].

Definition _get_path_map : list (mo_type * string) := __mo_path_map.

(** [self.__mo_path_map[current_type]] *)
Definition path_of (current_type : mo_type) : result string :=
  match find (fun kv => mo_type_eqb current_type (fst kv)) __mo_path_map with
  | Some kv => Ok (snd kv)
  | None => Err (KeyError (type_repr current_type))
  end.

(** [client_err.message = description] *)
Definition with_message (client_err : exn) (description : json) : exn :=
  match client_err with
  | ClientResponseError code _ => ClientResponseError code description
  | e => e
  end.

(** [f"{self._base_url}{path}?force={self.force}"], [self.force] being
    [int(force)]. *)
Definition post_url (path : string) : string :=
  String.append _base_url
    (String.append path
       (String.append "?force=" (if force then "1" else "0"))).

(** The body of [_post_single_to_backend]: one attempt. *)
Definition post_attempt (current_type : mo_type) (x : mo_obj) : M json :=
  session <- ModelClientBase._verify_session ;;
  path <- lift (path_of current_type) ;;
  response <- ModelClientBase.session_post http_post session (post_url path)
                (jsonable_encoder x) ;;
  resp <- lift (response_json response) ;;
  match raise_for_status response with
  | Err client_err =>
      has_description <- lift (py_in "description" resp) ;;
      if has_description : bool
      then description <- lift (py_getitem resp "description") ;;
           raise (with_message client_err description)
      else raise client_err
  | Ok _ => ret resp
  end.

(** [@retry(wait=wait_exponential(multiplier=2, min=1),
           stop=stop_after_attempt(7))] *)
Definition _post_single_to_backend (current_type : mo_type) (x : mo_obj)
  : M json :=
  retry (wait_exponential 2 1 MAX_WAIT) 7 (post_attempt current_type x).

Definition _post_to_backend : mo_type -> list mo_obj -> M (list json) :=
  ModelClientBase._post_to_backend _post_single_to_backend.

Definition _submit_chunk : list mo_obj -> M (list json) :=
  ModelClientBase._submit_chunk mo_type_eqb mo_class type_repr issubclass
    _get_path_map _post_single_to_backend.

Definition __check_if_server_online : nat -> Z -> M unit :=
  ModelClientBase.__check_if_server_online http_get _base_url
    _get_healthcheck_tuples.

Definition context {A} (body : M A) : M A :=
  ModelClientBase.context http_get _base_url _get_healthcheck_tuples body.

Definition load_mo_objs (objs : list mo_obj) (disable_progressbar : bool)
  : M (list json) :=
  ModelClientBase._submit_payloads mo_type_eqb mo_class type_name type_repr
    issubclass completion_order _chunk_size _get_path_map
    _post_single_to_backend objs disable_progressbar.

End ModelClient.
End ModelClient.

(** * A concrete client *)

Module Scenario.
Import ModelClient.

(** A client that never entered [context], and one inside it. *)
Definition no_session : world := mkWorld None (Open []) 0 0 [] [] [] [] [].
Definition in_session : world :=
  mkWorld (Some 0) (Open [0]) 1 1 [] [] [] [] [].

(** A backend that accepts every object and answers with it. *)
Definition accepting (log : list (string * json)) (url : string)
           (payload : json) : exn + response :=
  inr (mkResponse 200 "OK" (Json payload)).

(** A backend that rejects every object. *)
Definition rejecting (log : list (string * json)) (url : string)
           (payload : json) : exn + response :=
  inr (mkResponse 422 "Unprocessable Entity"
         (Json (JObj [("description", JStr "invalid uuid")]))).

Definition healthy (log : list string) (url : string) : exn + response :=
  inr (mkResponse 200 "OK" (Json (JObj [("mo_version", JStr "1.0")]))).

(** Two completion orders: the tasks finish in the order they were given,
    or the last one given finishes first. *)
Definition in_task_order (rs : list (result (list json)))
  : list (result (list json)) := rs.
Definition last_first (rs : list (result (list json)))
  : list (result (list json)) := rev rs.

Definition base_url : string := "http://localhost:5000".

Definition employee (n : Z) : mo_obj := mkObj Employee [("n", JNum n)].
Definition org_unit (n : Z) : mo_obj := mkObj OrganisationUnit [("n", JNum n)].
Definition role (n : Z) : mo_obj := mkObj Role [("n", JNum n)].

(** [load_mo_objs] with the drain of the specification. *)
Definition load_mo_objs_single_iterator
           (completion_order :
              list (result (list json)) -> list (result (list json)))
           (objs : list mo_obj) : M (list json) :=
  ModelClientBase._submit_payloads_single_iterator mo_type_eqb mo_class
    type_name type_repr issubclass completion_order 100 (_get_path_map)
    (_post_single_to_backend accepting base_url false) objs false.

End Scenario.

(** * [raclients/modelclient/mo.py] *)

Module ModelClientMO.
Import ModelClient.

(** The class of an object handed to the client: one of the classes the
    module imports from [ramodels.mo], or any other class, [repr] being
    its [str].  The routing tables are searched for the exact class, so a
    class derived from one of theirs is another class. *)
Inductive py_type : Type :=
| MO (t : mo_type)
| OtherType (repr : string).

(** An object as [get_object_url] reads it: its class and [obj.dict()],
    every value as [format] renders it. *)
Record py_obj : Type := mkPyObj {
  type_ : py_type;
  dict : list (string * string)
}.

(** A path of the routing tables as Python's formatter reads it: literal
    text and replacement fields [{name}]. *)
Inductive piece : Type :=
| Lit (text : string)
| Field (name : string).

Definition create_path_map : list (mo_type * list piece) :=
  [ (Address, [Lit "/service/details/create"]);
    (Association, [Lit "/service/details/create"]);
    (Employee, [Lit "/service/e/create"]);
    (Engagement, [Lit "/service/details/create"]);
    (EngagementAssociation, [Lit "/service/details/create"]);
    (FacetClass, [Lit "/service/f/"; Field "facet_uuid"; Lit "/"]);
    (ITUser, [Lit "/service/details/create"]);
    (KLE, [Lit "/service/details/create"]);
    (Leave, [Lit "/service/details/create"]);
    (Manager, [Lit "/service/details/create"]);
    (OrganisationUnit, [Lit "/service/ou/create"]);
    (Role, [Lit "/service/details/create"]) ].

Definition edit_path_map : list (mo_type * list piece) :=
  [ (Address, [Lit "/service/details/edit"]);
    (Association, [Lit "/service/details/edit"]);
    (Employee, [Lit "/service/details/edit"]);
    (Engagement, [Lit "/service/details/edit"]);
    (FacetClass, [Lit "/service/f/"; Field "facet_uuid"; Lit "/"]);
    (ITUser, [Lit "/service/details/edit"]);
    (KLE, [Lit "/service/details/edit"]);
    (Leave, [Lit "/service/details/edit"]);
    (Manager, [Lit "/service/details/edit"]);
    (OrganisationUnit, [Lit "/service/details/edit"]);
    (Role, [Lit "/service/details/edit"]) ].

(** [str.format_map]: a replacement field is looked up in the mapping, a
    missing one is a [KeyError]. *)
Fixpoint format_map (template : list piece) (mapping : list (string * string))
  : result string :=
  match template with
  | [] => Ok EmptyString
  | Lit text :: template' =>
      match format_map template' mapping with
      | Ok rest => Ok (String.append text rest)
      | Err e => Err e
      end
  | Field name :: template' =>
      match find (fun kv => String.eqb (fst kv) name) mapping with
      | None => Err (KeyError name)
      | Some kv =>
          match format_map template' mapping with
          | Ok rest => Ok (String.append (snd kv) rest)
          | Err e => Err e
          end
      end
  end.

(** [path_map[type(obj)]] *)
Definition path_of (path_map : list (mo_type * list piece)) (t : py_type)
  : result (list piece) :=
  match t with
  | MO t =>
      match find (fun kv => mo_type_eqb t (fst kv)) path_map with
      | Some kv => Ok (snd kv)
      | None => Err (KeyError (type_repr t))
      end
  | OtherType repr => Err (KeyError repr)
  end.

Section ModelClientMO.

Variable force : bool.

Definition get_object_url (obj : py_obj) (edit : bool) : result string :=
  let path_map := if edit then edit_path_map else create_path_map in
  match path_of path_map (type_ obj) with
  | Err e => Err e
  | Ok template =>
      match format_map template (dict obj) with
      | Err e => Err e
      | Ok path =>
          Ok (String.append path
                (String.append "?force=" (if force then "1" else "0")))
      end
  end.

End ModelClientMO.
End ModelClientMO.

(** * Backends with faults *)

Module Faults.
Import ModelClient Scenario.

(** The first [n] POSTs are lost in the network, the following ones are
    accepted. *)
Definition flaky (n : nat) (log : list (string * json)) (url : string)
           (payload : json) : exn + response :=
  if Nat.ltb (length log) n then inl (ClientError "Connection reset by peer")
  else accepting log url payload.

(** The backend answers the health probe from the [n]-th GET on. *)
Definition warming_up (n : nat) (log : list string) (url : string)
  : exn + response :=
  if Nat.ltb (S (length log)) n then inl (ClientError "Cannot connect to host")
  else healthy log url.

(** The backend is not reachable. *)
Definition down (log : list string) (url : string) : exn + response :=
  inl (ClientError "Cannot connect to host").

(** A proxy answers with a page of its own. *)
Definition gateway_page (log : list (string * json)) (url : string)
           (payload : json) : exn + response :=
  inr (mkResponse 502 "Bad Gateway" (NotJson "text/html")).

Definition facet_class (facet_uuid : string) : ModelClientMO.py_obj :=
  ModelClientMO.mkPyObj (ModelClientMO.MO FacetClass)
    [("facet_uuid", facet_uuid)].

(** An engagement association, and an object of a class of the caller's
    own that derives from [Employee]. *)
Definition engagement_association : ModelClientMO.py_obj :=
  ModelClientMO.mkPyObj (ModelClientMO.MO EngagementAssociation)
    [("uuid", "7a1c2f0e-6f0b-4f0e-9a53-0d2e3f4b5c6d")].

Definition special_employee : ModelClientMO.py_obj :=
  ModelClientMO.mkPyObj
    (ModelClientMO.OtherType "<class '__main__.SpecialEmployee'>")
    [("uuid", "2b7e1516-28ae-4d2a-abf7-158809cf4f3c")].

End Faults.

(** * Properties *)

(** ** The library functions *)


Section Grouping.
Context {A : Type} (key : A -> string).

Lemma groupby_cons (x : A) (l : list A) :
  exists g rest, groupby key (x :: l) = (key x, x :: g) :: rest.
Proof.
  simpl. destruct (groupby key l) as [|[k g] rest].
  - exists [], []. reflexivity.
  - destruct (String.eqb_spec (key x) k) as [->|_].
    + exists g, rest. reflexivity.
    + exists [], ((k, g) :: rest). reflexivity.
Qed.

Lemma groupby_concat (l : list A) :
  concat (map snd (groupby key l)) = l.
Proof.
  induction l as [|x l IH]; [reflexivity|].
  simpl. destruct (groupby key l) as [|[k g] rest].
  - simpl in *. now rewrite <- IH.
  - destruct (String.eqb (key x) k); simpl in *; now rewrite <- IH.
Qed.

Lemma groupby_runs (l : list A) :
  Forall (fun g => snd g <> [] /\ Forall (fun x => key x = fst g) (snd g))
         (groupby key l).
Proof.
  induction l as [|x l IH]; [constructor|].
  simpl. destruct (groupby key l) as [|[k g] rest].
  - repeat constructor. discriminate.
  - inversion IH as [|? ? [_ Hg] Hrest]; subst. simpl in Hg.
    destruct (String.eqb_spec (key x) k) as [Hk|_].
    + constructor; [|assumption]. simpl. split; [discriminate|].
      constructor; assumption.
    + constructor; [|assumption]. simpl. split; [discriminate|].
      repeat constructor.
Qed.

Lemma groupby_adjacent (l : list A) :
  adjacent_keys_differ (groupby key l).
Proof.
  induction l as [|x l IH]; [exact I|].
  simpl. destruct (groupby key l) as [|[k g] rest].
  - simpl. auto.
  - destruct (String.eqb_spec (key x) k) as [Hk|Hk].
    + simpl in *. exact IH.
    + simpl in *. split; [exact Hk | exact IH].
Qed.

Lemma groupby_app (l1 : list A) (x : A) (l2 : list A) :
  (forall y, In y l1 -> key y <> key x) ->
  groupby key (l1 ++ x :: l2) = groupby key l1 ++ groupby key (x :: l2).
Proof.
  induction l1 as [|a l1 IH]; intros H; [reflexivity|].
  change (groupby key ((a :: l1) ++ x :: l2))
    with (match groupby key (l1 ++ x :: l2) with
          | (k, g) :: rest =>
              if String.eqb (key a) k then (k, a :: g) :: rest
              else (key a, [a]) :: (k, g) :: rest
          | [] => [(key a, [a])]
          end).
  rewrite IH by (intros y Hy; apply H; now right).
  destruct l1 as [|b l1].
  - destruct (groupby_cons x l2) as (g & rest & ->). cbn [groupby app].
    destruct (String.eqb_spec (key a) (key x)) as [E|_]; [|reflexivity].
    exfalso. apply (H a); [now left | exact E].
  - change (groupby key (a :: b :: l1))
      with (match groupby key (b :: l1) with
            | (k, g) :: rest =>
                if String.eqb (key a) k then (k, a :: g) :: rest
                else (key a, [a]) :: (k, g) :: rest
            | [] => [(key a, [a])]
            end).
    destruct (groupby_cons b l1) as (g & rest & ->).
    generalize (groupby key (x :: l2)). intros gs. cbn [app].
    destruct (String.eqb (key a) (key b)); reflexivity.
Qed.

End Grouping.

Section Chunking.
Context {A : Type}.

Lemma take_chunks_concat (n : nat) :
  1 <= n ->
  forall fuel (l : list A),
    length l <= fuel -> concat (take_chunks fuel n l) = l.
Proof.
  intros Hn fuel. induction fuel as [|fuel IH]; intros l Hl.
  - destruct l; [reflexivity | simpl in Hl; lia].
  - simpl. destruct (firstn n l) as [|c cs] eqn:Hc.
    + destruct l as [|x l]; [reflexivity|].
      destruct n; [lia | discriminate].
    + change (concat ((c :: cs) :: take_chunks fuel n (skipn n l)) = l).
      rewrite concat_cons, IH.
      * rewrite <- Hc. apply firstn_skipn.
      * rewrite length_skipn.
        destruct l as [|x l]; [destruct n; discriminate|].
        simpl in Hl. simpl length. lia.
Qed.

Lemma take_chunks_zero (fuel : nat) (l : list A) : take_chunks fuel 0 l = [].
Proof.
  destruct fuel; reflexivity.
Qed.

Lemma take_chunks_nonempty (n fuel : nat) (l : list A) :
  Forall (fun c => c <> []) (take_chunks fuel n l).
Proof.
  revert l. induction fuel as [|fuel IH]; intros l; simpl; [constructor|].
  destruct (firstn n l) eqn:Hc; constructor; [discriminate | apply IH].
Qed.

Lemma chunked_in_range (l : list A) (n : Z) :
  (0 <= n <= maxsize)%Z ->
  chunked l n = Ok (take_chunks (length l) (Z.to_nat n) l).
Proof.
  unfold chunked. intros Hn.
  destruct (Z.ltb_spec n 0); [lia|].
  destruct (Z.ltb_spec maxsize n); [lia|]. reflexivity.
Qed.

Lemma chunked_out_of_range (l : list A) (n : Z) :
  (n < 0 \/ maxsize < n)%Z -> exists msg, chunked l n = Err (ValueError msg).
Proof.
  unfold chunked. intros Hn.
  destruct (Z.ltb_spec n 0); [simpl; eauto|].
  destruct (Z.ltb_spec maxsize n); [simpl; eauto | lia].
Qed.

Lemma chunked_inv (l : list A) (n : Z) (chunks : list (list A)) :
  chunked l n = Ok chunks ->
  (0 <= n <= maxsize)%Z /\ chunks = take_chunks (length l) (Z.to_nat n) l.
Proof.
  unfold chunked. intros H.
  destruct (Z.ltb_spec n 0); [discriminate|].
  destruct (Z.ltb_spec maxsize n); [discriminate|].
  injection H as <-. split; [lia | reflexivity].
Qed.

Lemma chunked_concat (l : list A) (n : Z) (chunks : list (list A)) :
  (1 <= n)%Z -> chunked l n = Ok chunks -> concat chunks = l.
Proof.
  intros Hn H. apply chunked_inv in H as [_ ->].
  apply take_chunks_concat; lia.
Qed.

Lemma chunked_ok (l : list A) (n : Z) :
  (0 <= n <= maxsize)%Z -> exists chunks, chunked l n = Ok chunks.
Proof.
  intros Hn. rewrite (chunked_in_range l n Hn). eauto.
Qed.

End Chunking.

Section Gathering.
Context {A : Type}.

Lemma run_all_length (tasks : list (M A)) :
  forall w rs w', run_all tasks w = (rs, w') -> length rs = length tasks.
Proof.
  induction tasks as [|t tasks IH]; intros w rs w' H; simpl in H.
  - now injection H as <- _.
  - destruct (t w) as [r w1]. destruct (run_all tasks w1) as [rs' w2] eqn:E.
    injection H as <- _. simpl. f_equal. eapply IH, E.
Qed.

Lemma collect_length (rs : list (result A)) :
  forall l, collect rs = Ok l -> length l = length rs.
Proof.
  induction rs as [|[a|e] rs IH]; intros l H; simpl in H.
  - now injection H as <-.
  - destruct (collect rs) as [l'|]; [|discriminate].
    injection H as <-. simpl. f_equal. now apply IH.
  - discriminate.
Qed.

Lemma gather_length (tasks : list (M A)) (w w' : world) (l : list A) :
  gather tasks w = (Ok l, w') -> length l = length tasks.
Proof.
  unfold gather. destruct (run_all tasks w) as [rs w1] eqn:E. intros H.
  injection H as H _. rewrite (collect_length _ _ H).
  eapply run_all_length, E.
Qed.

End Gathering.

Lemma run_all_map {A B} (f : A -> M B) (l : list A) :
  forall w rs w',
    run_all (map f l) w = (rs, w') ->
    Forall2 (fun a r => exists w1 w2, f a w1 = (r, w2)) l rs.
Proof.
  induction l as [|a l IH]; intros w rs w' H; simpl in H.
  - injection H as <- _. constructor.
  - destruct (f a w) as [r w1] eqn:Ea.
    destruct (run_all (map f l) w1) as [rs' w2] eqn:E.
    injection H as <- _. constructor; [eauto | eapply IH, E].
Qed.

Lemma run_all_frame {A B} (field : world -> B) (tasks : list (M A)) :
  Forall (fun t => forall w, field (snd (t w)) = field w) tasks ->
  forall w, field (snd (run_all tasks w)) = field w.
Proof.
  induction 1 as [|t tasks Ht _ IH]; intros w; simpl; [reflexivity|].
  specialize (Ht w). destruct (t w) as [r w1]. simpl in Ht.
  specialize (IH w1). destruct (run_all tasks w1) as [rs w2]. simpl in *.
  congruence.
Qed.

Lemma run_all_raise {A} (e : exn) (tasks : list (M A)) (w : world) :
  Forall (fun t => forall w, t w = (Err e, w)) tasks ->
  run_all tasks w = (map (fun _ => Err e) tasks, w).
Proof.
  induction 1 as [|t tasks Ht _ IH]; simpl; [reflexivity|].
  now rewrite Ht, IH.
Qed.

Lemma Forall2_In_l {A B} (P : A -> B -> Prop) (l : list A) (l' : list B) :
  Forall2 P l l' ->
  forall a, In a l -> exists b, In b l' /\ P a b.
Proof.
  induction 1 as [|a0 b0 l l' H0 _ IH]; intros a Ha; [contradiction|].
  destruct Ha as [<-|Ha].
  - exists b0. split; [now left | assumption].
  - destruct (IH a Ha) as (b & Hb & Hab). exists b. split; [now right | assumption].
Qed.

Lemma Permutation_list_sum (l l' : list nat) :
  Permutation l l' -> list_sum l = list_sum l'.
Proof.
  induction 1; simpl; lia.
Qed.

Lemma length_items_of_Ok (cs : list (list json)) :
  list_sum (map (fun r => length (items_of r)) (map Ok cs))
  = length (concat cs).
Proof.
  induction cs as [|c cs IH]; simpl; [reflexivity|].
  rewrite length_app. lia.
Qed.

(** ** The progress bar and the draining loops *)

Lemma pbar_updates_app (a b : list pbar_event) :
  pbar_updates (a ++ b) = pbar_updates a ++ pbar_updates b.
Proof.
  induction a as [|[] a IH]; simpl; rewrite ?IH; reflexivity.
Qed.

Lemma pbar_fold_updates (cs : list (list json)) :
  forall w,
    pbar (fold_left (fun w c => log_pbar (PbarUpdate (length c)) w) cs w)
    = pbar w ++ map (fun c => PbarUpdate (length c)) cs.
Proof.
  induction cs as [|c cs IH]; intros w; simpl.
  - now rewrite app_nil_r.
  - rewrite IH. simpl. now rewrite <- app_assoc.
Qed.

Lemma posts_fold_updates (cs : list (list json)) :
  forall w,
    posts (fold_left (fun w c => log_pbar (PbarUpdate (length c)) w) cs w)
    = posts w.
Proof.
  induction cs as [|c cs IH]; intros w; simpl; [reflexivity|].
  now rewrite IH.
Qed.

Lemma pbar_updates_of_updates (cs : list (list json)) :
  pbar_updates (map (fun c => PbarUpdate (length c)) cs) = map (@length json) cs.
Proof.
  induction cs as [|c cs IH]; simpl; [reflexivity | now rewrite IH].
Qed.

Lemma drain_ok (fs : list (result (list json))) :
  forall results w out w',
    ModelClientBase.drain fs results w = (Ok out, w') ->
    exists cs,
      fs = map Ok cs /\ out = results ++ concat cs
      /\ w' = fold_left (fun w c => log_pbar (PbarUpdate (length c)) w) cs w.
Proof.
  induction fs as [|[c|e] fs IH]; intros results w out w' H.
  - injection H as <- <-. exists []. simpl. now rewrite app_nil_r.
  - cbn in H. apply IH in H as (cs & -> & -> & ->).
    exists (c :: cs). simpl. now rewrite <- app_assoc.
  - discriminate.
Qed.

Lemma Forall2_In_r {A B} (P : A -> B -> Prop) (l : list A) (l' : list B) :
  Forall2 P l l' ->
  forall b, In b l' -> exists a, In a l /\ P a b.
Proof.
  induction 1 as [|a0 b0 l l' H0 _ IH]; intros b Hb; [contradiction|].
  destruct Hb as [<-|Hb].
  - exists a0. split; [now left | assumption].
  - destruct (IH b Hb) as (a & Ha & Hab). exists a. split; [now right | assumption].
Qed.

Lemma collect_Ok {A} (l : list A) : collect (map Ok l) = Ok l.
Proof.
  induction l as [|a l IH]; simpl; [reflexivity | now rewrite IH].
Qed.

Lemma collect_Err {A} (rs : list (result A)) (e : exn) :
  collect rs = Err e -> In (Err e) rs.
Proof.
  induction rs as [|[a|e'] rs IH]; simpl; intros H; [discriminate| |].
  - destruct (collect rs); [discriminate|]. right. apply IH. exact H.
  - injection H as ->. now left.
Qed.

Lemma drain_Ok (cs : list (list json)) :
  forall results w,
    ModelClientBase.drain (map Ok cs) results w
    = (Ok (results ++ concat cs),
       fold_left (fun w c => log_pbar (PbarUpdate (length c)) w) cs w).
Proof.
  induction cs as [|c cs IH]; intros results w.
  - simpl. now rewrite app_nil_r.
  - change (ModelClientBase.drain (map Ok (c :: cs)) results w)
      with (ModelClientBase.drain (map Ok cs) (results ++ c)
              (log_pbar (PbarUpdate (length c)) w)).
    rewrite IH. simpl. now rewrite <- app_assoc.
Qed.

Lemma session_fold_updates (cs : list (list json)) :
  forall w,
    _session (fold_left (fun w c => log_pbar (PbarUpdate (length c)) w) cs w)
    = _session w
    /\ tcp_connector
         (fold_left (fun w c => log_pbar (PbarUpdate (length c)) w) cs w)
       = tcp_connector w.
Proof.
  induction cs as [|c cs IH]; intros w; simpl; [now split|].
  destruct (IH (log_pbar (PbarUpdate (length c)) w)) as [-> ->]. now split.
Qed.

Lemma usable_fold_updates (s : nat) (cs : list (list json)) (w : world) :
  _session w = Some s /\ closed s w = false ->
  _session (fold_left (fun w c => log_pbar (PbarUpdate (length c)) w) cs w)
  = Some s
  /\ closed s (fold_left (fun w c => log_pbar (PbarUpdate (length c)) w) cs w)
     = false.
Proof.
  destruct (session_fold_updates cs w) as [Hs Hc].
  unfold closed, open_sessions. now rewrite Hs, Hc.
Qed.

Lemma list_sum_const {A} (l : list A) :
  list_sum (map (fun _ => 1) l) = length l.
Proof.
  induction l; simpl; [reflexivity | now f_equal].
Qed.

Lemma run_all_map_succeeds {X A} (I : world -> Prop) (Q : X -> A -> Prop)
      (f : X -> M A) (cost : X -> nat) (l : list X) :
  (forall x, In x l -> forall w,
        I w ->
        exists a w',
          f x w = (Ok a, w') /\ Q x a /\ I w'
          /\ length (posts w') = length (posts w) + cost x) ->
  forall w,
    I w ->
    exists rs w',
      run_all (map f l) w = (map Ok rs, w')
      /\ Forall2 Q l rs
      /\ I w'
      /\ length (posts w') = length (posts w) + list_sum (map cost l).
Proof.
  induction l as [|x l IH]; intros Hf w Hw.
  - exists [], w. simpl. repeat split; auto; try lia.
  - destruct (Hf x (or_introl eq_refl) w Hw) as (a & w1 & Hx & Hq & Hw1 & Hp1).
    destruct (IH (fun y Hy => Hf y (or_intror Hy)) w1 Hw1)
      as (rs & w2 & Hrun & Hall & Hw2 & Hp2).
    exists (a :: rs), w2. simpl. rewrite Hx, Hrun.
    repeat split; auto; try lia.
Qed.

Lemma Permutation_concat_length {A} (l l' : list (list A)) :
  Permutation l l' -> length (concat l) = length (concat l').
Proof.
  intros H. rewrite !length_concat.
  apply Permutation_list_sum, Permutation_map, H.
Qed.

Lemma Forall2_length_concat {A B} (l : list (list A)) (l' : list (list B)) :
  Forall2 (fun c r => length r = length c) l l' ->
  length (concat l') = length (concat l).
Proof.
  induction 1 as [|c r l l' H _ IH]; [reflexivity|].
  simpl. rewrite !length_app. lia.
Qed.

Lemma run_all_outcomes {A} (tasks : list (M A)) :
  forall w rs w',
    run_all tasks w = (rs, w') ->
    Forall2 (fun t r => exists w1 w2, t w1 = (r, w2)) tasks rs.
Proof.
  induction tasks as [|t tasks IH]; intros w rs w' H; simpl in H.
  - injection H as <- _. constructor.
  - destruct (t w) as [r w1] eqn:Et.
    destruct (run_all tasks w1) as [rs' w2] eqn:E.
    injection H as <- _. constructor; [eauto | eapply IH, E].
Qed.

Lemma drain_err (fs : list (result (list json))) :
  forall results w e w',
    ModelClientBase.drain fs results w = (Err e, w') -> In (Err e) fs.
Proof.
  induction fs as [|[c|e0] fs IH]; intros results w e w' H.
  - discriminate.
  - cbn in H. right. eapply IH, H.
  - cbn in H. injection H as <- _. now left.
Qed.

Section Draining.
Variable completion_order :
  list (result (list json)) -> list (result (list json)).

Lemma upload_cons (key : string) (tasks : list (M (list json)))
      (rest : list (string * list (M (list json)))) (results : list json)
      (w : world) :
  ModelClientBase.upload completion_order ((key, tasks) :: rest) results w
  = let (rs, wb) :=
      run_all tasks
        (log_pbar (PbarDescription (String.append "Uploading " key)) w) in
    match ModelClientBase.drain (completion_order rs) results wb with
    | (Ok results', wc) =>
        ModelClientBase.upload completion_order rest results' wc
    | (Err e, wc) => (Err e, wc)
    end.
Proof.
  unfold ModelClientBase.upload at 1; fold ModelClientBase.upload.
  unfold bind, effect, ModelClientBase.as_completed.
  destruct (run_all tasks _) as [rs wb]. reflexivity.
Qed.

(** What a successful [upload] did: the tasks of each group were run, the
    chunk results [cs] of the group were taken in completion order, and
    each advanced the progress counter by its length. *)
Lemma upload_ok (chunked_tasks : list (string * list (M (list json)))) :
  forall results w out w',
    ModelClientBase.upload completion_order chunked_tasks results w
    = (Ok out, w') ->
    exists consumed,
      Forall2 (fun kt cs =>
                 exists w1 w2 rs,
                   run_all (snd kt) w1 = (rs, w2)
                   /\ completion_order rs = map Ok cs)
              chunked_tasks consumed
      /\ out = results ++ concat (concat consumed)
      /\ (Forall (fun kt =>
                    Forall (fun t => forall w, pbar (snd (t w)) = pbar w)
                           (snd kt)) chunked_tasks ->
          pbar_updates (pbar w')
          = pbar_updates (pbar w) ++ map (@length json) (concat consumed)).
Proof.
  induction chunked_tasks as [|[key tasks] rest IH]; intros results w out w' H.
  - injection H as <- <-. exists []. simpl.
    rewrite !app_nil_r. repeat split; constructor.
  - rewrite upload_cons in H.
    destruct (run_all tasks _) as [rs wb] eqn:Erun.
    destruct (ModelClientBase.drain (completion_order rs) results wb)
      as [[results'|e] wc] eqn:Edrain; [|discriminate].
    apply drain_ok in Edrain as (cs & Hcs & -> & ->).
    apply IH in H as (consumed & Hall & -> & Hbar).
    exists (cs :: consumed). split; [|split].
    + constructor; [|assumption]. simpl. eauto.
    + simpl. rewrite concat_app. now rewrite app_assoc.
    + intros Hframe. inversion Hframe as [|? ? Htasks Hrest]; subst.
      rewrite (Hbar Hrest). simpl in Htasks.
      rewrite pbar_fold_updates, pbar_updates_app, pbar_updates_of_updates.
      pose proof (run_all_frame pbar tasks Htasks
                    (log_pbar (PbarDescription (String.append "Uploading " key)) w))
        as Hrun.
      rewrite Erun in Hrun. simpl in Hrun. rewrite Hrun.
      rewrite pbar_updates_app. simpl. rewrite app_nil_r.
      simpl concat. rewrite map_app. now rewrite app_assoc.
Qed.

(** When every task of the first group raises [e] at once, so does the
    upload: whichever task finishes first, it raises [e]. *)
Lemma upload_first_group_raises (e : exn) (key : string)
      (tasks : list (M (list json)))
      (rest : list (string * list (M (list json)))) (results : list json)
      (w : world) :
  (forall rs, Permutation (completion_order rs) rs) ->
  tasks <> [] ->
  Forall (fun t => forall w, t w = (Err e, w)) tasks ->
  ModelClientBase.upload completion_order ((key, tasks) :: rest) results w
  = (Err e, log_pbar (PbarDescription (String.append "Uploading " key)) w).
Proof.
  intros Hperm Hne Hall. rewrite upload_cons, (run_all_raise e tasks _ Hall).
  specialize (Hperm (map (fun _ => Err e) tasks)).
  destruct (completion_order _) as [|f fs].
  - apply Permutation_nil in Hperm. destruct tasks; [congruence | discriminate].
  - assert (Hf : In f (map (fun _ : M (list json) => @Err (list json) e) tasks)).
    { eapply Permutation_in; [exact Hperm | now left]. }
    apply in_map_iff in Hf as (t & <- & _). reflexivity.
Qed.

(** The groups [tasks1] are drained before anything of [rest] is
    started: either they all go through and the upload goes on with
    [rest], or it ends with the error one of their tasks raised. *)
Lemma upload_app_cases (tasks1 rest : list (string * list (M (list json)))) :
  (forall rs, Permutation (completion_order rs) rs) ->
  forall results w,
    (exists out w1,
        ModelClientBase.upload completion_order (tasks1 ++ rest) results w
        = ModelClientBase.upload completion_order rest out w1)
    \/ (exists e w1 kt t wa wb,
           ModelClientBase.upload completion_order (tasks1 ++ rest) results w
           = (Err e, w1)
           /\ In kt tasks1 /\ In t (snd kt) /\ t wa = (Err e, wb)).
Proof.
  intros Hperm. induction tasks1 as [|[key tasks] tasks1 IH]; intros results w.
  - left. exists results, w. reflexivity.
  - change (((key, tasks) :: tasks1) ++ rest)
      with ((key, tasks) :: (tasks1 ++ rest)).
    rewrite upload_cons.
    destruct (run_all tasks _) as [rs wb] eqn:Erun.
    destruct (ModelClientBase.drain (completion_order rs) results wb)
      as [[results'|e] wc] eqn:Edrain.
    + destruct (IH results' wc)
        as [(out & w1 & H)|(e & w1 & kt & t & wa & wb' & H & Hkt & Ht & Hrun)].
      * left. eauto.
      * right. exists e, w1, kt, t, wa, wb'.
        split; [exact H|]. split; [now right|]. split; assumption.
    + right. apply drain_err in Edrain.
      apply (Permutation_in _ (Hperm rs)) in Edrain.
      apply run_all_outcomes in Erun.
      destruct (Forall2_In_r _ _ _ Erun _ Edrain) as (t & Ht & wa & wb' & Hrun).
      exists e, wc, (key, tasks), t, wa, wb'.
      split; [reflexivity|]. split; [now left|]. split; assumption.
Qed.

End Draining.

(** ** Retrying *)

Section Retrying.
Context {A : Type} (wait : nat -> Z) (fn : M A).

Lemma retry_loop_raises :
  forall k n w last w',
    all_attempts_raise wait fn (S k) n w last w' ->
    retry_loop wait k n fn w = (Err (RetryError last), w').
Proof.
  induction k as [|k IH]; intros n w last w' H; inversion H; subst; simpl.
  - now rewrite H0.
  - rewrite H1. now apply IH.
Qed.

Lemma retry_loop_err :
  forall k n w e w',
    retry_loop wait k n fn w = (Err e, w') ->
    exists last,
      e = RetryError last /\ all_attempts_raise wait fn (S k) n w last w'.
Proof.
  induction k as [|k IH]; intros n w e w' H; simpl in H;
    destruct (fn w) as [[a|e1] w1] eqn:E; try discriminate.
  - injection H as <- <-. exists e1. split; [reflexivity|].
    now constructor.
  - apply IH in H as (last & -> & Hrest). exists last.
    split; [reflexivity|]. econstructor; eassumption.
Qed.

(** The delays awaited and the requests issued by a retried function that
    itself awaits no delay and issues at most one request. *)
Lemma retry_loop_budget :
  (forall w, sleeps (snd (fn w)) = sleeps w) ->
  (forall w, length (posts (snd (fn w))) <= S (length (posts w))) ->
  forall k n w,
  exists j,
    j <= k
    /\ sleeps (snd (retry_loop wait k n fn w))
       = sleeps w ++ map wait (seq n j)
    /\ length (posts (snd (retry_loop wait k n fn w)))
       <= length (posts w) + S j
    /\ (forall e, fst (retry_loop wait k n fn w) = Err e -> j = k).
Proof.
  intros Hsleeps Hposts.
  induction k as [|k IH]; intros n w; simpl;
    pose proof (Hsleeps w) as Hs; pose proof (Hposts w) as Hp;
    destruct (fn w) as [[a|e1] w1]; simpl in Hs, Hp.
  - exists 0. simpl. rewrite app_nil_r.
    split; [lia | split; [auto | split; [lia | discriminate]]].
  - exists 0. simpl. rewrite app_nil_r.
    split; [lia | split; [auto | split; [lia | auto]]].
  - exists 0. simpl. rewrite app_nil_r.
    split; [lia | split; [auto | split; [lia | discriminate]]].
  - destruct (IH (S n) (log_sleep (wait n) w1)) as (j & Hj & Hsl & Hpo & He).
    exists (S j). simpl in Hsl, Hpo.
    split; [lia | split; [| split; [lia |]]].
    + rewrite Hsl, Hs. simpl. now rewrite <- app_assoc.
    + intros e H. f_equal. eapply He, H.
Qed.

End Retrying.

(** ** [ModelClientBase]: grouping, chunking and submission *)

Section BaseProperties.
Variable ty : Type.
Variable obj : Type.
Variable ty_eqb : ty -> ty -> bool.
Variable type_ : obj -> ty.
Variable type_name : ty -> string.
Variable type_repr : ty -> string.
Variable issubclass : ty -> ty -> bool.
Variable completion_order :
  list (result (list json)) -> list (result (list json)).
Variable _chunk_size : Z.
Variable _get_path_map : list (ty * string).
Variable _post_single_to_backend : ty -> obj -> M json.

Local Abbreviation groups := (ModelClientBase.groups type_ type_name).
Local Abbreviation chunk_groups := (ModelClientBase.chunk_groups _chunk_size).
Local Abbreviation in_path_map := (ModelClientBase.in_path_map ty_eqb _get_path_map).
Local Abbreviation _post_to_backend :=
  (ModelClientBase._post_to_backend _post_single_to_backend).
Local Abbreviation _submit_chunk :=
  (ModelClientBase._submit_chunk ty_eqb type_ type_repr issubclass
     _get_path_map _post_single_to_backend).
Local Abbreviation _submit_payloads :=
  (ModelClientBase._submit_payloads ty_eqb type_ type_name type_repr
     issubclass completion_order _chunk_size _get_path_map
     _post_single_to_backend).
Local Abbreviation tasks_of :=
  (map (fun g : string * list (list obj) =>
          (fst g, map _submit_chunk (snd g)))).

(** Posting an object of a mapped class works while the open session [s]
    is held, and costs one POST. *)
Local Abbreviation single_posts_succeed s :=
  (forall t x w,
      in_path_map t = true ->
      _session w = Some s /\ closed s w = false ->
      exists j w',
        _post_single_to_backend t x w = (Ok j, w')
        /\ (_session w' = Some s /\ closed s w' = false)
        /\ length (posts w') = S (length (posts w)))
  (s in scope nat_scope).

(** A task that succeeds while the open session [s] is held, with one
    result and one POST for each object. *)
Local Abbreviation chunk_goes_through s c :=
  (forall w,
      _session w = Some s /\ closed s w = false ->
      exists res w',
        _submit_chunk c w = (Ok res, w')
        /\ length res = length c
        /\ (_session w' = Some s /\ closed s w' = false)
        /\ length (posts w') = length (posts w) + length c)
  (s in scope nat_scope).

(** *** Chunks of groups *)

Lemma chunk_groups_chunked (gs : list (string * list obj)) :
  forall cgs,
    chunk_groups gs = Ok cgs ->
    Forall2 (fun g cg => fst cg = fst g /\ chunked (snd g) _chunk_size = Ok (snd cg))
            gs cgs.
Proof.
  induction gs as [|[k g] gs IH]; intros cgs H; simpl in H.
  - injection H as <-. constructor.
  - destruct (chunked g _chunk_size) as [chunks|] eqn:Ec; [|discriminate].
    destruct (chunk_groups gs) as [rest|]; [|discriminate].
    injection H as <-. constructor; [now split | now apply IH].
Qed.

Lemma chunk_groups_total (gs : list (string * list obj)) :
  (0 <= _chunk_size <= maxsize)%Z -> exists cgs, chunk_groups gs = Ok cgs.
Proof.
  intros Hn. induction gs as [|[k g] gs [rest IH]]; simpl; [eauto|].
  destruct (chunked_ok g _chunk_size Hn) as [chunks ->]. rewrite IH. eauto.
Qed.

Lemma chunk_groups_concat (gs : list (string * list obj)) cgs :
  (1 <= _chunk_size)%Z ->
  chunk_groups gs = Ok cgs ->
  concat (concat (map snd cgs)) = concat (map snd gs).
Proof.
  intros Hn H. apply chunk_groups_chunked in H.
  induction H as [|g cg gs cgs [_ Hc] _ IH]; [reflexivity|].
  simpl. rewrite concat_app, IH. f_equal. eapply chunked_concat; eauto.
Qed.

Lemma chunk_groups_app (gs1 gs2 : list (string * list obj)) cgs1 cgs2 :
  chunk_groups gs1 = Ok cgs1 ->
  chunk_groups gs2 = Ok cgs2 ->
  chunk_groups (gs1 ++ gs2) = Ok (cgs1 ++ cgs2).
Proof.
  revert cgs1. induction gs1 as [|[k g] gs1 IH]; intros cgs1 H1 H2; simpl in *.
  - now injection H1 as <-.
  - destruct (chunked g _chunk_size) as [chunks|]; [|discriminate].
    destruct (chunk_groups gs1) as [rest|]; [|discriminate].
    injection H1 as <-. now rewrite (IH rest eq_refl H2).
Qed.

Lemma chunk_groups_out_of_range (gs : list (string * list obj)) cgs :
  (_chunk_size < 0 \/ maxsize < _chunk_size)%Z ->
  chunk_groups gs = Ok cgs -> gs = [] /\ cgs = [].
Proof.
  intros Hn H. destruct gs as [|[k g] gs]; simpl in H.
  - injection H as <-. now split.
  - destruct (chunked_out_of_range g _chunk_size Hn) as [msg Hc].
    rewrite Hc in H. discriminate.
Qed.

Lemma chunk_groups_zero (gs : list (string * list obj)) :
  _chunk_size = 0%Z ->
  chunk_groups gs = Ok (map (fun g => (fst g, [])) gs).
Proof.
  intros Hz. induction gs as [|[k g] gs IH]; simpl; [reflexivity|].
  rewrite IH. unfold chunked. rewrite Hz. simpl.
  now rewrite take_chunks_zero.
Qed.

(** *** One chunk *)

Lemma post_to_backend_length (t : ty) (data : list obj) w res w' :
  _post_to_backend t data w = (Ok res, w') -> length res = length data.
Proof.
  unfold ModelClientBase._post_to_backend, bind. intros H.
  destruct (ModelClientBase._verify_session w) as [[s|e] w1]; [|discriminate].
  apply gather_length in H. now rewrite length_map in H.
Qed.

Lemma submit_chunk_length (data : list obj) w res w' :
  _submit_chunk data w = (Ok res, w') -> length res = length data.
Proof.
  unfold ModelClientBase._submit_chunk. destruct data as [|x0 data]; [discriminate|].
  destruct (negb (forallb _ _)); [discriminate|].
  destruct (negb (in_path_map _)); [discriminate|].
  apply post_to_backend_length.
Qed.

Lemma submit_chunk_unmapped_homogeneous (x0 : obj) (data : list obj) (w : world) :
  (forall t, issubclass t t = true) ->
  (forall y, In y data -> type_ y = type_ x0) ->
  in_path_map (type_ x0) = false ->
  _submit_chunk (x0 :: data) w
  = (Err (UnknownTypeError (type_repr (type_ x0))), w).
Proof.
  intros Hrefl Hsame Hmap. unfold ModelClientBase._submit_chunk.
  replace (forallb _ (x0 :: data)) with true; [simpl; now rewrite Hmap|].
  symmetry. apply forallb_forall. intros y [<-|Hy].
  - apply Hrefl.
  - unfold ModelClientBase.isinstance. rewrite (Hsame y Hy). apply Hrefl.
Qed.

Lemma post_to_backend_pbar (t : ty) (data : list obj) :
  (forall t x w, pbar (snd (_post_single_to_backend t x w)) = pbar w) ->
  forall w, pbar (snd (_post_to_backend t data w)) = pbar w.
Proof.
  intros Hframe w. unfold ModelClientBase._post_to_backend, bind.
  unfold ModelClientBase._verify_session.
  destruct (_session w); [|reflexivity].
  unfold gather.
  pose proof (run_all_frame pbar
                (map (fun x => _post_single_to_backend t x) data)) as Hrun.
  destruct (run_all _ w) as [rs w1] eqn:E. simpl.
  specialize (Hrun (proj2 (Forall_map _ _ _)
                      (proj2 (Forall_forall _ _) (fun x _ => Hframe t x))) w).
  now rewrite E in Hrun.
Qed.

Lemma submit_chunk_pbar (data : list obj) :
  (forall t x w, pbar (snd (_post_single_to_backend t x w)) = pbar w) ->
  forall w, pbar (snd (_submit_chunk data w)) = pbar w.
Proof.
  intros Hframe w. unfold ModelClientBase._submit_chunk.
  destruct data as [|x0 data]; [reflexivity|].
  destruct (negb (forallb _ _)); [reflexivity|].
  destruct (negb (in_path_map _)); [reflexivity|].
  now apply post_to_backend_pbar.
Qed.

(** *** The whole batch *)

Lemma consumed_of_tasks cgs (consumed : list (list (list json))) :
  Forall2 (fun kt cs =>
             exists w1 w2 rs,
               run_all (snd kt) w1 = (rs, w2)
               /\ completion_order rs = map Ok cs)
          (tasks_of cgs) consumed ->
  Forall2 (fun cg cs =>
             exists w1 w2 rs,
               run_all (map _submit_chunk (snd cg)) w1 = (rs, w2)
               /\ completion_order rs = map Ok cs)
          cgs consumed.
Proof.
  revert consumed. induction cgs as [|cg cgs IH]; intros consumed H;
    inversion H; subst; constructor; auto.
Qed.

Lemma no_tasks (cgs : list (string * list (list obj))) :
  ModelClientBase.is_empty (tasks_of cgs)
  || forallb (fun g => ModelClientBase.is_empty (snd g)) (tasks_of cgs) = true ->
  Forall (fun cg => snd cg = []) cgs.
Proof.
  destruct cgs as [|cg0 cgs0]; [constructor|].
  simpl ModelClientBase.is_empty. rewrite orb_false_l, forallb_forall.
  intros H. apply Forall_forall. intros cg Hin.
  apply (in_map (fun g => (fst g, map _submit_chunk (snd g)))) in Hin.
  apply H in Hin. simpl in Hin.
  destruct (snd cg); [reflexivity | discriminate].
Qed.

Lemma no_tasks_consumed (cgs : list (string * list (list obj))) (w : world) :
  completion_order [] = [] ->
  Forall (fun cg => snd cg = []) cgs ->
  Forall2 (fun cg cs =>
             exists w1 w2 rs,
               run_all (map _submit_chunk (snd cg)) w1 = (rs, w2)
               /\ completion_order rs = map Ok cs)
          cgs (map (fun _ => []) cgs)
  /\ concat (map (fun _ : string * list (list obj) => @nil (list json)) cgs) = [].
Proof.
  intros Hnil. induction 1 as [|cg cgs Hcg _ [IH1 IH2]]; simpl;
    [split; constructor|].
  split; [|exact IH2]. constructor; [|exact IH1].
  rewrite Hcg. exists w, w, []. now split.
Qed.

(** What a successful [_submit_payloads] did. *)
Lemma submit_payloads_ok (objs : list obj) (d : bool) (w w' : world)
      (results : list json) :
  completion_order [] = [] ->
  _submit_payloads objs d w = (Ok results, w') ->
  exists cgs consumed,
    chunk_groups (groups objs) = Ok cgs
    /\ Forall2 (fun cg cs =>
                  exists w1 w2 rs,
                    run_all (map _submit_chunk (snd cg)) w1 = (rs, w2)
                    /\ completion_order rs = map Ok cs)
               cgs consumed
    /\ results = concat (concat consumed)
    /\ ((forall t x w, pbar (snd (_post_single_to_backend t x w)) = pbar w) ->
        pbar_updates (pbar w')
        = pbar_updates (pbar w) ++ map (@length json) (concat consumed)).
Proof.
  intros Hnil. unfold ModelClientBase._submit_payloads, bind, lift.
  destruct (chunk_groups (groups objs)) as [cgs|e] eqn:Ecg; [|discriminate].
  destruct (ModelClientBase.is_empty (tasks_of cgs) || _) eqn:Eempty.
  - intros H. injection H as <- <-.
    destruct (no_tasks_consumed cgs w Hnil (no_tasks cgs Eempty)) as [H1 H2].
    exists cgs, (map (fun _ => []) cgs).
    rewrite H2. simpl. rewrite app_nil_r. auto.
  - unfold ModelClientBase.with_tqdm.
    destruct (ModelClientBase.upload _ _ _ _) as [r w1] eqn:Eup.
    intros H. injection H as -> <-.
    apply upload_ok in Eup as (consumed & Hall & -> & Hbar).
    exists cgs, consumed. repeat split; [now apply consumed_of_tasks|].
    intros Hframe. simpl. rewrite pbar_updates_app. simpl.
    rewrite app_nil_r, Hbar.
    + simpl. rewrite pbar_updates_app. simpl. now rewrite app_nil_r.
    + apply Forall_forall. intros kt Hkt. apply in_map_iff in Hkt as (cg & <- & _).
      simpl. apply Forall_forall. intros t Ht.
      apply in_map_iff in Ht as (c & <- & _). now apply submit_chunk_pbar.
Qed.

(** The chunk results taken from one group count as many items as the
    group's chunks have objects. *)
Lemma group_consumed_length (chunks : list (list obj)) (cs : list (list json))
      (w1 w2 : world) (rs : list (result (list json))) :
  Permutation (completion_order rs) rs ->
  run_all (map _submit_chunk chunks) w1 = (rs, w2) ->
  completion_order rs = map Ok cs ->
  length (concat cs) = length (concat chunks).
Proof.
  intros Hperm Hrun Hcs.
  rewrite <- length_items_of_Ok, <- Hcs.
  rewrite (Permutation_list_sum _ _ (Permutation_map _ Hperm)).
  assert (Hok : Forall (fun r => is_ok r = true) rs).
  { eapply Permutation_Forall; [exact Hperm|]. rewrite Hcs.
    apply Forall_forall. intros r Hr. apply in_map_iff in Hr as (c & <- & _).
    reflexivity. }
  apply run_all_map in Hrun. clear Hperm Hcs.
  induction Hrun as [|c r chunks rs (wa & wb & Hc) _ IH]; [reflexivity|].
  inversion Hok as [|? ? Hr Hrs]; subst.
  simpl. rewrite length_app, (IH Hrs). f_equal.
  destruct r as [res|e]; [|discriminate]. simpl.
  eapply submit_chunk_length, Hc.
Qed.

Lemma consumed_length (cgs : list (string * list (list obj)))
      (consumed : list (list (list json))) :
  (forall rs, Permutation (completion_order rs) rs) ->
  Forall2 (fun cg cs =>
             exists w1 w2 rs,
               run_all (map _submit_chunk (snd cg)) w1 = (rs, w2)
               /\ completion_order rs = map Ok cs)
          cgs consumed ->
  length (concat (concat consumed)) = length (concat (concat (map snd cgs))).
Proof.
  intros Hperm H.
  induction H as [|cg cs cgs consumed (w1 & w2 & rs & Hrun & Hcs) _ IH];
    [reflexivity|].
  simpl. rewrite !concat_app, !length_app, IH. f_equal.
  eapply group_consumed_length; eauto.
Qed.

(** *** Where an object of the input ends up *)

Lemma chunk_of_object (objs : list obj) cgs (x : obj) :
  (1 <= _chunk_size)%Z ->
  chunk_groups (groups objs) = Ok cgs ->
  In x objs ->
  exists cg c,
    In cg cgs /\ In c (snd cg) /\ In x c
    /\ forall y, In y c -> type_name (type_ y) = type_name (type_ x).
Proof.
  intros Hn Hcg Hx.
  rewrite <- (groupby_concat (fun x => type_name (type_ x)) objs) in Hx.
  apply in_concat in Hx as (g' & Hg' & Hxg).
  apply in_map_iff in Hg' as (g & <- & Hg).
  pose proof (groupby_runs (fun x => type_name (type_ x)) objs) as Hruns.
  rewrite Forall_forall in Hruns. destruct (Hruns g Hg) as [_ Hkey].
  rewrite Forall_forall in Hkey.
  apply chunk_groups_chunked in Hcg.
  destruct (Forall2_In_l _ _ _ Hcg g Hg) as (cg & Hcgin & _ & Hchunked).
  pose proof (chunked_concat _ _ _ Hn Hchunked) as Hconcat.
  rewrite <- Hconcat in Hxg. apply in_concat in Hxg as (c & Hc & Hxc).
  exists cg, c. repeat split; try assumption.
  intros y Hy. rewrite (Hkey x), (Hkey y); [reflexivity| |].
  - rewrite <- Hconcat. apply in_concat. eauto.
  - rewrite <- Hconcat. apply in_concat. eauto.
Qed.

Lemma consumed_chunk_ok cgs (consumed : list (list (list json)))
      (cg : string * list (list obj)) (c : list obj) :
  (forall rs, Permutation (completion_order rs) rs) ->
  Forall2 (fun cg cs =>
             exists w1 w2 rs,
               run_all (map _submit_chunk (snd cg)) w1 = (rs, w2)
               /\ completion_order rs = map Ok cs)
          cgs consumed ->
  In cg cgs -> In c (snd cg) ->
  exists wa wb res, _submit_chunk c wa = (Ok res, wb).
Proof.
  intros Hperm Hall Hcg Hc.
  destruct (Forall2_In_l _ _ _ Hall cg Hcg)
    as (cs & _ & w1 & w2 & rs & Hrun & Hcs).
  apply run_all_map in Hrun.
  destruct (Forall2_In_l _ _ _ Hrun c Hc) as (r & Hr & wa & wb & Hsub).
  assert (Hok : In r (map Ok cs)).
  { rewrite <- Hcs. eapply Permutation_in; [symmetry; apply Hperm | exact Hr]. }
  apply in_map_iff in Hok as (res & <- & _). eauto.
Qed.

(** *** An upload that goes through *)

Lemma post_to_backend_succeeds (s : nat) (t : ty) (data : list obj) (w : world) :
  single_posts_succeed s ->
  in_path_map t = true ->
  _session w = Some s /\ closed s w = false ->
  exists res w',
    _post_to_backend t data w = (Ok res, w')
    /\ length res = length data
    /\ (_session w' = Some s /\ closed s w' = false)
    /\ length (posts w') = length (posts w) + length data.
Proof.
  intros Hsingle Hmap Hw.
  destruct (run_all_map_succeeds
              (fun w => _session w = Some s /\ closed s w = false)
              (fun _ _ => True)
              (fun x => _post_single_to_backend t x) (fun _ => 1) data)
    with (w := w) as (rs & w' & Hrun & Hall & Hw' & Hposts); [|exact Hw|].
  - intros x _ w0 Hw0.
    destruct (Hsingle t x w0 Hmap Hw0) as (j & w1 & H1 & H2 & H3).
    exists j, w1. split; [exact H1|]. split; [exact I|]. split; [exact H2 | lia].
  - exists rs, w'.
    unfold ModelClientBase._post_to_backend, bind,
      ModelClientBase._verify_session, gather.
    rewrite (proj1 Hw), Hrun, collect_Ok. rewrite list_sum_const in Hposts.
    split; [reflexivity|]. split; [|split; [exact Hw' | exact Hposts]].
    symmetry. eapply Forall2_length, Hall.
Qed.

(** A chunk of objects of one mapped class is handed to
    [_post_to_backend] as it is. *)
Lemma submit_chunk_mapped (x0 : obj) (data : list obj) (w : world) :
  (forall t, issubclass t t = true) ->
  (forall y, In y data -> type_ y = type_ x0) ->
  in_path_map (type_ x0) = true ->
  _submit_chunk (x0 :: data) w = _post_to_backend (type_ x0) (x0 :: data) w.
Proof.
  intros Hrefl Hsame Hmap. unfold ModelClientBase._submit_chunk.
  replace (forallb _ (x0 :: data)) with true; [simpl; now rewrite Hmap|].
  symmetry. apply forallb_forall. intros y [<-|Hy].
  - apply Hrefl.
  - unfold ModelClientBase.isinstance. rewrite (Hsame y Hy). apply Hrefl.
Qed.

Lemma submit_chunk_succeeds (s : nat) (c : list obj) :
  single_posts_succeed s ->
  (forall t, issubclass t t = true) ->
  c <> [] ->
  (forall y z, In y c -> In z c -> type_ y = type_ z) ->
  (forall y, In y c -> in_path_map (type_ y) = true) ->
  chunk_goes_through s c.
Proof.
  intros Hsingle Hrefl Hne Hsame Hmap w Hw.
  destruct c as [|x0 c]; [congruence|].
  rewrite submit_chunk_mapped.
  - apply post_to_backend_succeeds; auto. apply Hmap. now left.
  - exact Hrefl.
  - intros y Hy. apply Hsame; [now right | now left].
  - apply Hmap. now left.
Qed.

(** The groups [cgs] go through, and the upload goes on with [rest]. *)
Lemma upload_prefix_succeeds (s : nat) (cgs : list (string * list (list obj)))
      (rest : list (string * list (M (list json)))) :
  (forall rs, Permutation (completion_order rs) rs) ->
  (forall cg c, In cg cgs -> In c (snd cg) -> chunk_goes_through s c) ->
  forall results w,
    _session w = Some s /\ closed s w = false ->
    exists out w',
      ModelClientBase.upload completion_order (tasks_of cgs ++ rest) results w
      = ModelClientBase.upload completion_order rest out w'
      /\ length out = length results + length (concat (concat (map snd cgs)))
      /\ (_session w' = Some s /\ closed s w' = false)
      /\ length (posts w')
         = length (posts w) + length (concat (concat (map snd cgs))).
Proof.
  intros Hperm. induction cgs as [|[key chunks] cgs IH]; intros Hchunks results w Hw.
  - exists results, w. simpl. split; [reflexivity|]. split; [lia|].
    split; [exact Hw | lia].
  - change (tasks_of ((key, chunks) :: cgs) ++ rest)
      with ((key, map _submit_chunk chunks) :: (tasks_of cgs ++ rest)).
    rewrite upload_cons.
    destruct (run_all_map_succeeds
                (fun w => _session w = Some s /\ closed s w = false)
                (fun c res => length res = length c)
                _submit_chunk (@length obj) chunks)
      with (w := log_pbar (PbarDescription (String.append "Uploading " key)) w)
      as (rs & wb & Hrun & Hall & Hwb & Hposts); [|exact Hw|].
    { intros c Hc w0 Hw0.
      destruct (Hchunks (key, chunks) c (or_introl eq_refl) Hc w0 Hw0)
        as (res & w1 & H1 & H2 & H3 & H4).
      exists res, w1. auto. }
    rewrite Hrun.
    destruct (Permutation_map_inv _ _ (Hperm (map Ok rs))) as (rs' & Hrs' & Hp).
    rewrite Hrs', drain_Ok.
    destruct (IH (fun cg c Hcg Hc => Hchunks cg c (or_intror Hcg) Hc)
                (results ++ concat rs')
                (fold_left (fun w c => log_pbar (PbarUpdate (length c)) w) rs' wb))
      as (out & w' & Hup & Hlen & Hw' & Hposts').
    { now apply usable_fold_updates. }
    exists out, w'. rewrite posts_fold_updates in Hposts'.
    pose proof (Permutation_concat_length _ _ Hp) as Hperm_len.
    pose proof (Forall2_length_concat _ _ Hall) as Hall_len.
    rewrite <- length_concat in Hposts. simpl in Hposts.
    rewrite length_app in Hlen.
    simpl. rewrite concat_app, length_app.
    split; [exact Hup|]. split; [lia|]. split; [exact Hw' | lia].
Qed.


(** The chunks made of an input hold objects of the input, all with the
    class name of their group, and none is empty. *)
Lemma chunk_contents (objs : list obj) cgs
      (cg : string * list (list obj)) (c : list obj) :
  (1 <= _chunk_size)%Z ->
  chunk_groups (groups objs) = Ok cgs ->
  In cg cgs -> In c (snd cg) ->
  c <> []
  /\ forall y, In y c -> In y objs /\ type_name (type_ y) = fst cg.
Proof.
  intros Hn Hcg Hin Hc.
  apply chunk_groups_chunked in Hcg.
  destruct (Forall2_In_r _ _ _ Hcg cg Hin) as (g & Hg & Hfst & Hchunked).
  pose proof (chunked_concat _ _ _ Hn Hchunked) as Hconcat.
  split.
  - apply chunked_inv in Hchunked as [_ Heq].
    pose proof (take_chunks_nonempty (Z.to_nat _chunk_size)
                  (length (snd g)) (snd g)) as Hne.
    rewrite <- Heq, Forall_forall in Hne. now apply Hne.
  - intros y Hy.
    assert (Hyg : In y (snd g)).
    { rewrite <- Hconcat. apply in_concat. eauto. }
    split.
    + rewrite <- (groupby_concat (fun x => type_name (type_ x)) objs).
      apply in_concat. exists (snd g). split; [now apply in_map | exact Hyg].
    + pose proof (groupby_runs (fun x => type_name (type_ x)) objs) as Hruns.
      rewrite Forall_forall in Hruns. destruct (Hruns g Hg) as [_ Hkey].
      rewrite Forall_forall in Hkey. rewrite Hfst. now apply Hkey.
Qed.


(** *** What an upload leaves alone *)

Section Frame.
Context {B : Type} (field : world -> B).
Hypothesis field_log_pbar : forall ev w, field (log_pbar ev w) = field w.
Hypothesis field_post_single :
  forall t x w, field (snd (_post_single_to_backend t x w)) = field w.

Lemma post_to_backend_frame (t : ty) (data : list obj) (w : world) :
  field (snd (_post_to_backend t data w)) = field w.
Proof.
  unfold ModelClientBase._post_to_backend, bind.
  unfold ModelClientBase._verify_session.
  destruct (_session w); [|reflexivity].
  unfold gather.
  pose proof (run_all_frame field
                (map (fun x => _post_single_to_backend t x) data)) as Hrun.
  destruct (run_all _ w) as [rs w1] eqn:E. simpl.
  specialize (Hrun (proj2 (Forall_map _ _ _)
                      (proj2 (Forall_forall _ _)
                         (fun x _ => field_post_single t x))) w).
  now rewrite E in Hrun.
Qed.

Lemma submit_chunk_frame (data : list obj) (w : world) :
  field (snd (_submit_chunk data w)) = field w.
Proof.
  unfold ModelClientBase._submit_chunk.
  destruct data as [|x0 data]; [reflexivity|].
  destruct (negb (forallb _ _)); [reflexivity|].
  destruct (negb (in_path_map _)); [reflexivity|].
  apply post_to_backend_frame.
Qed.

Lemma drain_frame (fs : list (result (list json))) :
  forall results w, field (snd (ModelClientBase.drain fs results w)) = field w.
Proof.
  induction fs as [|[c|e] fs IH]; intros results w; [reflexivity| |reflexivity].
  change (ModelClientBase.drain (Ok c :: fs) results w)
    with (ModelClientBase.drain fs (results ++ c)
            (log_pbar (PbarUpdate (length c)) w)).
  now rewrite IH.
Qed.

Lemma upload_frame (cgs : list (string * list (list obj))) :
  forall results w,
    field (snd (ModelClientBase.upload completion_order (tasks_of cgs)
                  results w))
    = field w.
Proof.
  induction cgs as [|[key chunks] cgs IH]; intros results w; [reflexivity|].
  change (tasks_of ((key, chunks) :: cgs))
    with ((key, map _submit_chunk chunks) :: tasks_of cgs).
  rewrite upload_cons.
  pose proof (run_all_frame field (map _submit_chunk chunks)) as Hrun.
  specialize (Hrun (proj2 (Forall_map _ _ _)
                      (proj2 (Forall_forall _ _)
                         (fun c _ => submit_chunk_frame c)))
                   (log_pbar (PbarDescription (String.append "Uploading " key)) w)).
  destruct (run_all _ _) as [rs wb]. simpl in Hrun.
  pose proof (drain_frame (completion_order rs) results wb) as Hdrain.
  destruct (ModelClientBase.drain _ _ wb) as [[results'|e] wc]; simpl in Hdrain.
  - now rewrite IH, Hdrain, Hrun.
  - simpl. now rewrite Hdrain, Hrun.
Qed.

Lemma submit_payloads_frame (objs : list obj) (d : bool) (w : world) :
  field (snd (_submit_payloads objs d w)) = field w.
Proof.
  unfold ModelClientBase._submit_payloads, bind, lift.
  destruct (chunk_groups (groups objs)) as [cgs|e]; [|reflexivity].
  destruct (ModelClientBase.is_empty _ || _); [reflexivity|].
  unfold ModelClientBase.with_tqdm.
  pose proof (upload_frame cgs [] (log_pbar (PbarOpen (length objs) d) w))
    as Hup.
  destruct (ModelClientBase.upload _ _ _ _) as [r w1]. simpl in Hup |- *.
  now rewrite field_log_pbar, Hup.
Qed.

End Frame.

(** *** Degenerate chunk sizes *)

Lemma submit_payloads_chunk_size_zero (objs : list obj) (d : bool) (w : world) :
  _chunk_size = 0%Z ->
  _submit_payloads objs d w = (Ok [], w).
Proof.
  intros Hz. unfold ModelClientBase._submit_payloads, bind, lift.
  rewrite (chunk_groups_zero _ Hz).
  replace (forallb _ _) with true; [now rewrite orb_true_r|].
  symmetry. apply forallb_forall. intros kt Hkt.
  apply in_map_iff in Hkt as (cg & <- & Hcg).
  apply in_map_iff in Hcg as (g & <- & _). reflexivity.
Qed.

(** *** The first object of an unmapped class *)

Lemma submit_payloads_some_tasks (objs : list obj) (d : bool) (w : world)
      cgs (cg : string * list (list obj)) :
  chunk_groups (groups objs) = Ok cgs ->
  In cg cgs -> snd cg <> [] ->
  _submit_payloads objs d w
  = ModelClientBase.with_tqdm (length objs) d
      (ModelClientBase.upload completion_order (tasks_of cgs) []) w.
Proof.
  intros H Hin Hne. unfold ModelClientBase._submit_payloads, bind, lift.
  rewrite H. destruct (ModelClientBase.is_empty _ || _) eqn:E; [|reflexivity].
  apply no_tasks in E. rewrite Forall_forall in E.
  elim Hne. now apply E.
Qed.

(** The group that starts with an object of an unmapped class has at least
    one chunk, and every task made of it raises the unknown-type error
    at once. *)
Lemma unmapped_first_group (x : obj) (rest : list obj) :
  (forall a b, type_name a = type_name b -> a = b) ->
  (forall t, issubclass t t = true) ->
  (1 <= _chunk_size <= maxsize)%Z ->
  in_path_map (type_ x) = false ->
  exists c chunks crest,
    chunk_groups (groups (x :: rest))
    = Ok ((type_name (type_ x), c :: chunks) :: crest)
    /\ Forall (fun t => forall w,
                 t w = (Err (UnknownTypeError (type_repr (type_ x))), w))
              (map _submit_chunk (c :: chunks)).
Proof.
  intros Hinj Hrefl Hn Hmap.
  destruct (groupby_cons (fun x => type_name (type_ x)) x rest)
    as (g & grest & Hg).
  assert (Hkeys : forall y, In y (x :: g) -> type_ y = type_ x).
  { intros y Hy. apply Hinj.
    pose proof (groupby_runs (fun x => type_name (type_ x)) (x :: rest)) as Hr.
    rewrite Hg in Hr. inversion Hr as [|? ? [_ Hk] _]; subst.
    simpl in Hk. rewrite Forall_forall in Hk. now apply Hk. }
  destruct (chunk_groups_total (groups (x :: rest))) as [cgs Hcg]; [lia|].
  pose proof (chunk_groups_chunked _ _ Hcg) as Hall.
  unfold ModelClientBase.groups in Hall. rewrite Hg in Hall.
  inversion Hall as [|? [k chunks] ? crest [Hk Hchunked] _]; subst.
  simpl in Hk, Hchunked. subst k.
  pose proof (chunked_concat _ _ _ (proj1 Hn) Hchunked) as Hconcat.
  assert (Hne : chunks <> []) by (intros ->; discriminate).
  assert (Hraise : Forall (fun t => forall w, t w
                     = (Err (UnknownTypeError (type_repr (type_ x))), w))
                          (map _submit_chunk chunks)).
  { apply Forall_forall. intros t Ht.
    apply in_map_iff in Ht as (c & <- & Hc). intros w0.
    assert (Hcne : c <> []).
    { apply chunked_inv in Hchunked as [_ Heq].
      pose proof (take_chunks_nonempty (Z.to_nat _chunk_size)
                    (length (x :: g)) (x :: g)) as Hnonempty.
      rewrite <- Heq, Forall_forall in Hnonempty. now apply Hnonempty. }
    destruct c as [|x0 c]; [congruence|].
    assert (Hin : forall y, In y (x0 :: c) -> type_ y = type_ x).
    { intros y Hy. apply Hkeys. rewrite <- Hconcat. apply in_concat. eauto. }
    rewrite <- (Hin x0 (or_introl eq_refl)).
    apply submit_chunk_unmapped_homogeneous; [assumption| |].
    - intros y Hy. rewrite (Hin y (or_intror Hy)).
      symmetry. apply Hin. now left.
    - rewrite (Hin x0 (or_introl eq_refl)). exact Hmap. }
  destruct chunks as [|c chunks]; [congruence|].
  exists c, chunks, crest. split; [exact Hcg | exact Hraise].
Qed.

(** The chunks of an input whose first object of an unmapped class is
    [x]: those of the objects before [x], then those of the rest. *)
Lemma chunk_groups_before_unmapped (pre : list obj) (x : obj) (post : list obj)
      cgs1 cgs2 :
  (forall a b, type_name a = type_name b -> a = b) ->
  (forall y, In y pre -> in_path_map (type_ y) = true) ->
  in_path_map (type_ x) = false ->
  chunk_groups (groups pre) = Ok cgs1 ->
  chunk_groups (groups (x :: post)) = Ok cgs2 ->
  chunk_groups (groups (pre ++ x :: post)) = Ok (cgs1 ++ cgs2).
Proof.
  intros Hinj Hpre Hmap H1 H2. unfold ModelClientBase.groups.
  rewrite groupby_app; [now apply chunk_groups_app|].
  intros y Hy E. apply Hinj in E. specialize (Hpre y Hy).
  rewrite E in Hpre. congruence.
Qed.

(** *** Claims on the batch *)

(** C1, as the code has it: [_submit_payloads] groups with
    [itertools.groupby] on the unsorted input, so a group is a maximal run
    of neighbouring objects with one class name.  The groups in order make
    up the input, no group is empty, every object of a group has the
    group's class name, and two neighbouring groups have different names;
    objects of one class that are apart in the input are in different
    groups. *)
Theorem groups_are_runs (objs : list obj) :
  concat (map snd (groups objs)) = objs
  /\ Forall (fun g => snd g <> []
                      /\ Forall (fun x => type_name (type_ x) = fst g) (snd g))
            (groups objs)
  /\ adjacent_keys_differ (groups objs).
Proof.
  unfold ModelClientBase.groups. split; [|split].
  - apply groupby_concat.
  - apply (groupby_runs (fun x => type_name (type_ x))).
  - apply groupby_adjacent.
Qed.

(** C8: on an empty input [_submit_payloads] returns the empty list at
    once and leaves the world as it found it: no request is issued and no
    progress bar is opened. *)
Theorem submit_payloads_empty (d : bool) (w : world) :
  _submit_payloads [] d w = (Ok [], w)
  /\ posts (snd (_submit_payloads [] d w)) = posts w
  /\ gets (snd (_submit_payloads [] d w)) = gets w
  /\ pbar (snd (_submit_payloads [] d w)) = pbar w.
Proof.
  repeat split.
Qed.

(** C6, as the code has it: when no submission fails, the list
    [_submit_payloads] returns has as many items as the input has objects,
    unless the chunk size is 0: then no chunk is made and the list is
    empty, whatever the input. *)
Theorem submit_payloads_count (objs : list obj) (d : bool) (w w' : world)
        (results : list json) :
  (forall rs, Permutation (completion_order rs) rs) ->
  _submit_payloads objs d w = (Ok results, w') ->
  (_chunk_size <> 0%Z -> length results = length objs)
  /\ (_chunk_size = 0%Z -> results = []).
Proof.
  intros Hperm H. split.
  - intros Hn.
    apply submit_payloads_ok in H as (cgs & consumed & Hcg & Hall & -> & _).
    2:{ apply Permutation_nil. symmetry. apply Hperm. }
    rewrite (consumed_length cgs consumed Hperm Hall).
    destruct (Z.le_gt_cases 1 _chunk_size) as [Hpos|Hneg].
    + rewrite (chunk_groups_concat _ _ Hpos Hcg).
      unfold ModelClientBase.groups. now rewrite groupby_concat.
    + destruct (chunk_groups_out_of_range _ _ ltac:(lia) Hcg) as [Hgs ->].
      rewrite <- (groupby_concat (fun x => type_name (type_ x)) objs).
      unfold ModelClientBase.groups in Hgs. now rewrite Hgs.
  - intros Hz. rewrite (submit_payloads_chunk_size_zero objs d w Hz) in H.
    now injection H as <- _.
Qed.

(** C3, as the code has it: the result list is built group by group, in
    the order of the groups.  For each group its chunk tasks are run and
    their results [cs] taken in the order they complete; each extends the
    result list by its items and advances the progress counter by their
    number.  Completion order decides the order within a group only. *)
Theorem submit_payloads_drains_group_by_group (objs : list obj) (d : bool)
        (w w' : world) (results : list json) :
  (forall rs, Permutation (completion_order rs) rs) ->
  (forall t x w, pbar (snd (_post_single_to_backend t x w)) = pbar w) ->
  _submit_payloads objs d w = (Ok results, w') ->
  exists cgs consumed,
    chunk_groups (groups objs) = Ok cgs
    /\ Forall2 (fun cg cs =>
                  exists w1 w2 rs,
                    run_all (map _submit_chunk (snd cg)) w1 = (rs, w2)
                    /\ completion_order rs = map Ok cs)
               cgs consumed
    /\ results = concat (concat consumed)
    /\ pbar_updates (pbar w')
       = pbar_updates (pbar w) ++ map (@length json) (concat consumed).
Proof.
  intros Hperm Hframe H.
  apply submit_payloads_ok in H as (cgs & consumed & Hcg & Hall & Hres & Hbar).
  - exists cgs, consumed. auto.
  - apply Permutation_nil. symmetry. apply Hperm.
Qed.

(** C5, as the code has it.  Class names tell classes apart, a class is
    a subclass of itself, the chunk size is between 1 and [sys.maxsize],
    every started task finishes once, and the class of [x] is not in the
    path map.  Then a chunk of objects of the class of [x] is refused with
    the unknown-type error before anything is sent, and an input that
    contains [x] never yields a result list.  When [x] is the first object
    of the input, the error of [_submit_payloads] is the unknown-type
    error and no POST was issued.  When the objects before [x] all have
    mapped classes, the error is the unknown-type error of [x] or the
    error with which posting a chunk of those objects failed; and when an
    open session is held and posting one object of a mapped class
    succeeds with one POST, it is the unknown-type error, after one POST
    for each object before [x] and none for [x] or what follows it. *)
Theorem unmapped_type_fails_closed (x : obj) :
  (forall a b, type_name a = type_name b -> a = b) ->
  (forall t, issubclass t t = true) ->
  (1 <= _chunk_size <= maxsize)%Z ->
  (forall rs, Permutation (completion_order rs) rs) ->
  in_path_map (type_ x) = false ->
  (forall data w,
      In x data -> (forall y, In y data -> type_ y = type_ x) ->
      _submit_chunk data w
      = (Err (UnknownTypeError (type_repr (type_ x))), w))
  /\ (forall objs d w,
         In x objs -> exists e w', _submit_payloads objs d w = (Err e, w'))
  /\ (forall rest d w,
         exists w',
           _submit_payloads (x :: rest) d w
           = (Err (UnknownTypeError (type_repr (type_ x))), w')
           /\ posts w' = posts w)
  /\ (forall pre post d w,
         (forall y, In y pre -> in_path_map (type_ y) = true) ->
         exists e w',
           _submit_payloads (pre ++ x :: post) d w = (Err e, w')
           /\ (e = UnknownTypeError (type_repr (type_ x))
               \/ exists t data w1 w2,
                   data <> []
                   /\ (forall y, In y data -> In y pre /\ type_ y = t)
                   /\ _post_to_backend t data w1 = (Err e, w2)))
  /\ (forall s pre post d w,
         (forall y, In y pre -> in_path_map (type_ y) = true) ->
         single_posts_succeed s ->
         _session w = Some s /\ closed s w = false ->
         exists w',
           _submit_payloads (pre ++ x :: post) d w
           = (Err (UnknownTypeError (type_repr (type_ x))), w')
           /\ length (posts w') = length (posts w) + length pre).
Proof.
  intros Hinj Hrefl Hn Hperm Hmap.
  assert (Hchunk : forall data w,
             data <> [] -> (forall y, In y data -> type_ y = type_ x) ->
             _submit_chunk data w
             = (Err (UnknownTypeError (type_repr (type_ x))), w)).
  { intros [|x0 data] w Hne Hsame; [congruence|].
    rewrite <- (Hsame x0 (or_introl eq_refl)).
    apply submit_chunk_unmapped_homogeneous; [assumption| |].
    - intros y Hy. rewrite (Hsame y (or_intror Hy)).
      symmetry. apply Hsame. now left.
    - rewrite (Hsame x0 (or_introl eq_refl)). exact Hmap. }
  assert (Hsplit : forall pre post d w,
             (forall y, In y pre -> in_path_map (type_ y) = true) ->
             exists cgs1 c chunks crest,
               chunk_groups (groups pre) = Ok cgs1
               /\ Forall (fun t => forall w,
                            t w = (Err (UnknownTypeError (type_repr (type_ x))), w))
                         (map _submit_chunk (c :: chunks))
               /\ _submit_payloads (pre ++ x :: post) d w
                  = ModelClientBase.with_tqdm (length (pre ++ x :: post)) d
                      (ModelClientBase.upload completion_order
                         (tasks_of cgs1
                          ++ (type_name (type_ x), map _submit_chunk (c :: chunks))
                             :: tasks_of crest) []) w).
  { intros pre post d w Hpre.
    destruct (unmapped_first_group x post Hinj Hrefl Hn Hmap)
      as (c & chunks & crest & Hcg2 & Hraise).
    destruct (chunk_groups_total (groups pre)) as [cgs1 Hcg1]; [lia|].
    exists cgs1, c, chunks, crest. split; [exact Hcg1|]. split; [exact Hraise|].
    pose proof (chunk_groups_before_unmapped pre x post _ _ Hinj Hpre Hmap
                  Hcg1 Hcg2) as Hcg.
    rewrite (submit_payloads_some_tasks _ d w _
               (type_name (type_ x), c :: chunks) Hcg).
    - now rewrite map_app.
    - apply in_or_app. right. now left.
    - discriminate. }
  split; [|split; [|split; [|split]]].
  - intros data w Hx Hsame. apply Hchunk; [|assumption].
    intros ->. contradiction.
  - intros objs d w Hx.
    destruct (_submit_payloads objs d w) as [[results|e] w'] eqn:H; [|eauto].
    exfalso.
    apply submit_payloads_ok in H as (cgs & consumed & Hcg & Hall & _).
    2:{ apply Permutation_nil. symmetry. apply Hperm. }
    destruct (chunk_of_object objs cgs x (proj1 Hn) Hcg Hx)
      as (cg & c & Hcgin & Hc & Hxc & Hnames).
    destruct (consumed_chunk_ok cgs consumed cg c Hperm Hall Hcgin Hc)
      as (wa & wb & res & Hsub).
    rewrite Hchunk in Hsub; [discriminate| |].
    + intros ->. contradiction.
    + intros y Hy. apply Hinj, Hnames, Hy.
  - intros rest d w.
    destruct (Hsplit [] rest d w)
      as (cgs1 & c & chunks & crest & Hcg1 & Hraise & Heq).
    { intros y []. }
    change ([] ++ x :: rest) with (x :: rest) in Heq. rewrite Heq.
    simpl in Hcg1. injection Hcg1 as <-. unfold ModelClientBase.with_tqdm.
    cbn [map app].
    rewrite (upload_first_group_raises completion_order
               (UnknownTypeError (type_repr (type_ x))) _ _ _ _ _ Hperm);
      [|discriminate|exact Hraise].
    eexists. split; reflexivity.
  - intros pre post d w Hpre.
    destruct (Hsplit pre post d w Hpre)
      as (cgs1 & c & chunks & crest & Hcg1 & Hraise & ->).
    unfold ModelClientBase.with_tqdm.
    destruct (upload_app_cases completion_order (tasks_of cgs1)
                ((type_name (type_ x), map _submit_chunk (c :: chunks))
                 :: tasks_of crest) Hperm []
                (log_pbar (PbarOpen (length (pre ++ x :: post)) d) w))
      as [(out & w1 & ->)|(e & w1 & kt & t & wa & wb & -> & Hkt & Ht & Hrun)].
    + rewrite (upload_first_group_raises completion_order
                 (UnknownTypeError (type_repr (type_ x))) _ _ _ _ _ Hperm);
        [|discriminate|exact Hraise].
      eexists. eexists. split; [reflexivity|]. now left.
    + exists e. eexists. split; [reflexivity|]. right.
      apply in_map_iff in Hkt as (cg & <- & Hcg).
      simpl in Ht. apply in_map_iff in Ht as (c' & <- & Hc').
      destruct (chunk_contents pre cgs1 cg c' (proj1 Hn) Hcg1 Hcg Hc')
        as [Hne Hys].
      destruct c' as [|y0 c']; [congruence|].
      assert (Hsame : forall y, In y (y0 :: c') -> type_ y = type_ y0).
      { intros y Hy. apply Hinj.
        rewrite (proj2 (Hys y Hy)), (proj2 (Hys y0 (or_introl eq_refl))).
        reflexivity. }
      exists (type_ y0), (y0 :: c'), wa, wb.
      split; [discriminate|]. split.
      * intros y Hy. split; [apply Hys, Hy | apply Hsame, Hy].
      * rewrite <- Hrun. symmetry. apply submit_chunk_mapped.
        -- exact Hrefl.
        -- intros y Hy. apply Hsame. now right.
        -- apply Hpre. apply Hys. now left.
  - intros s pre post d w Hpre Hsingle Hw.
    destruct (Hsplit pre post d w Hpre)
      as (cgs1 & c & chunks & crest & Hcg1 & Hraise & ->).
    unfold ModelClientBase.with_tqdm.
    destruct (upload_prefix_succeeds s cgs1
                ((type_name (type_ x), map _submit_chunk (c :: chunks))
                 :: tasks_of crest) Hperm) with (results := @nil json)
      (w := log_pbar (PbarOpen (length (pre ++ x :: post)) d) w)
      as (out & w1 & -> & _ & _ & Hposts); [|exact Hw|].
    + intros cg c' Hcg Hc'.
      destruct (chunk_contents pre cgs1 cg c' (proj1 Hn) Hcg1 Hcg Hc')
        as [Hne Hys].
      apply submit_chunk_succeeds; auto.
      * intros y z Hy Hz. apply Hinj.
        rewrite (proj2 (Hys y Hy)), (proj2 (Hys z Hz)). reflexivity.
      * intros y Hy. apply Hpre. apply (Hys y Hy).
    + rewrite (upload_first_group_raises completion_order
                 (UnknownTypeError (type_repr (type_ x))) _ _ _ _ _ Hperm);
        [|discriminate|exact Hraise].
      eexists. split; [reflexivity|]. simpl. simpl in Hposts.
      rewrite Hposts. f_equal.
      rewrite (chunk_groups_concat _ _ (proj1 Hn) Hcg1).
      unfold ModelClientBase.groups. now rewrite groupby_concat.
Qed.

End BaseProperties.

(** ** [ModelClientBase]: the session *)


Lemma close_session_open_sessions (s : nat) (w : world) :
  open_sessions (close_session s w)
  = if closed s w then open_sessions w else [].
Proof.
  unfold close_session. destruct (closed s w); reflexivity.
Qed.

Lemma close_session_removes (s : nat) (w : world) :
  ~ In s (open_sessions (close_session s w)).
Proof.
  rewrite close_session_open_sessions. unfold closed.
  destruct (existsb (Nat.eqb s) (open_sessions w)) eqn:E; simpl; [tauto|].
  intros Hin.
  assert (H : existsb (Nat.eqb s) (open_sessions w) = true).
  { apply existsb_exists. exists s. split; [exact Hin | apply Nat.eqb_refl]. }
  congruence.
Qed.


(** Closing a session touches nothing but the connector. *)
Lemma close_session_frame (s : nat) (w : world) :
  _session (close_session s w) = _session w
  /\ created (close_session s w) = created w
  /\ posts (close_session s w) = posts w
  /\ gets (close_session s w) = gets w
  /\ sleeps (close_session s w) = sleeps w
  /\ printed (close_session s w) = printed w
  /\ pbar (close_session s w) = pbar w.
Proof.
  unfold close_session. destruct (closed s w); repeat split.
Qed.

Section SessionProperties.
Variable http_get : list string -> string -> exn + response.
Variable _base_url : string.
Variable _get_healthcheck_tuples : list (string * string).

Local Abbreviation probe := (ModelClientBase.probe http_get).
Local Abbreviation check_endpoint := (ModelClientBase.check_endpoint http_get).
Local Abbreviation __check_if_server_online :=
  (ModelClientBase.__check_if_server_online http_get _base_url
     _get_healthcheck_tuples).
Local Abbreviation context :=
  (ModelClientBase.context http_get _base_url _get_healthcheck_tuples).

(** A probe issues one GET and nothing else. *)
Lemma probe_world (session : nat) (url marker : string) (w : world) :
  snd (probe session url marker w) = log_get url w.
Proof.
  unfold ModelClientBase.probe, ModelClientBase.session_get, bind, lift.
  destruct (closed session w); [reflexivity|].
  destruct (http_get (gets w) url) as [e|resp]; [reflexivity|].
  destruct (raise_for_status resp); [|reflexivity].
  destruct (response_json resp) as [decoded|]; [|reflexivity].
  destruct (py_in marker decoded) as [[|]|]; reflexivity.
Qed.

(** Probing touches no part of the world that requests, prints and delays
    leave alone. *)
Lemma check_endpoint_frame {B} (field : world -> B) :
  (forall u w, field (log_get u w) = field w) ->
  (forall e w, field (log_print e w) = field w) ->
  (forall d w, field (log_sleep d w) = field w) ->
  forall attempts session delay url marker w,
    field (snd (check_endpoint session attempts delay url marker w)) = field w.
Proof.
  intros Hget Hprint Hsleep attempts session delay url marker.
  induction attempts as [|n IH]; intros w; [reflexivity|].
  simpl. pose proof (probe_world session url marker w) as Hw.
  destruct (probe session url marker w) as [[u|e] w1]; simpl in Hw; subst w1.
  - simpl. apply Hget.
  - unfold bind, print, sleep, effect. rewrite IH, Hsleep, Hprint. apply Hget.
Qed.

Lemma check_if_server_online_frame {B} (field : world -> B) :
  (forall u w, field (log_get u w) = field w) ->
  (forall e w, field (log_print e w) = field w) ->
  (forall d w, field (log_sleep d w) = field w) ->
  forall attempts delay w,
    field (snd (__check_if_server_online attempts delay w)) = field w.
Proof.
  intros Hget Hprint Hsleep attempts delay w.
  unfold ModelClientBase.__check_if_server_online, bind,
    ModelClientBase._verify_session.
  destruct (_session w) as [session|]; [|reflexivity].
  unfold gather.
  match goal with |- context [run_all ?t w] => set (tasks := t) end.
  assert (Hall : Forall (fun t => forall w, field (snd (t w)) = field w) tasks).
  { apply Forall_map, Forall_map, Forall_forall. intros t _ w0.
    now apply check_endpoint_frame. }
  pose proof (run_all_frame field tasks Hall w) as Hrun.
  destruct (run_all tasks w) as [rs w1]. simpl in Hrun.
  destruct (collect rs); exact Hrun.
Qed.

Lemma check_endpoint_step (session attempts : nat) (delay : Z)
      (url marker : string) (w : world) :
  is_ok (fst (probe session url marker w)) = false ->
  exists e,
    check_endpoint session (S attempts) delay url marker w
    = check_endpoint session attempts delay url marker
        (log_sleep delay (log_print e (log_get url w))).
Proof.
  intros Hfail. simpl.
  pose proof (probe_world session url marker w) as Hw.
  destruct (probe session url marker w) as [[u|e] w1]; [discriminate|].
  simpl in Hw. subst w1. exists e. reflexivity.
Qed.

(** While every probe fails, the endpoint is asked [attempts] times, each
    failure followed by the delay, and then given up. *)
Lemma check_endpoint_exhausted (session : nat) (delay : Z)
      (url marker : string) :
  (forall w0, is_ok (fst (probe session url marker w0)) = false) ->
  forall attempts w,
  exists w',
    check_endpoint session attempts delay url marker w
    = (Err (Exception "Unable to connect"), w')
    /\ gets w' = gets w ++ repeat url attempts
    /\ sleeps w' = sleeps w ++ repeat delay attempts
    /\ posts w' = posts w
    /\ _session w' = _session w
    /\ tcp_connector w' = tcp_connector w.
Proof.
  intros Hfail attempts. induction attempts as [|n IH]; intros w.
  - exists w. simpl. rewrite !app_nil_r. repeat split.
  - destruct (check_endpoint_step session n delay url marker w (Hfail w))
      as [e ->].
    destruct (IH (log_sleep delay (log_print e (log_get url w))))
      as (w' & -> & Hg & Hs & Hp & Hsess & Ho).
    exists w'. simpl in Hg, Hs, Hp, Hsess, Ho.
    rewrite Hg, Hs, <- !app_assoc. repeat split; assumption.
Qed.

(** A closed session refuses every probe: the endpoint is given up after
    [attempts] refusals, each printed and followed by the delay. *)
Lemma check_endpoint_closed (session : nat) (delay : Z) (url marker : string) :
  forall attempts w,
    closed session w = true ->
    exists w',
      check_endpoint session attempts delay url marker w
      = (Err (Exception "Unable to connect"), w')
      /\ gets w' = gets w ++ repeat url attempts
      /\ printed w'
         = printed w ++ repeat (RuntimeError "Session is closed") attempts
      /\ posts w' = posts w
      /\ tcp_connector w' = tcp_connector w.
Proof.
  induction attempts as [|n IH]; intros w Hc.
  - exists w. simpl. rewrite !app_nil_r. repeat split.
  - assert (Hprobe : probe session url marker w
                     = (Err (RuntimeError "Session is closed"), log_get url w)).
    { unfold ModelClientBase.probe, ModelClientBase.session_get, bind.
      now rewrite Hc. }
    destruct (IH (log_sleep delay
                    (log_print (RuntimeError "Session is closed")
                       (log_get url w))) Hc)
      as (w' & Hrun & Hg & Hpr & Hp & Ho).
    exists w'. split.
    + change (check_endpoint session (S n) delay url marker w)
        with (match probe session url marker w with
              | (Ok _, w') => (Ok tt, w')
              | (Err exp, w') =>
                  (print exp ;; sleep delay ;;
                   check_endpoint session n delay url marker) w'
              end).
      rewrite Hprobe. exact Hrun.
    + simpl in Hg, Hpr, Hp, Ho. rewrite Hg, Hpr, <- !app_assoc.
      repeat split; assumption.
Qed.


End SessionProperties.

(** ** [ModelClient]: posting one object *)

Lemma existsb_find {A} (f : A -> bool) (l : list A) :
  existsb f l = true -> exists a, find f l = Some a.
Proof.
  induction l as [|a l IH]; simpl; [discriminate|].
  destruct (f a); [eauto | exact IH].
Qed.

Lemma existsb_find_none {A} (f : A -> bool) (l : list A) :
  existsb f l = false -> find f l = None.
Proof.
  induction l as [|a l IH]; simpl; [reflexivity|].
  destruct (f a); [discriminate | exact IH].
Qed.

Section SingleObject.
Variable http_post : list (string * json) -> string -> json -> exn + response.
Variable http_get : list string -> string -> exn + response.
Variable _base_url : string.
Variable force : bool.

Local Abbreviation post_url := (ModelClient.post_url _base_url force).
Local Abbreviation session_post := (ModelClientBase.session_post http_post).
Local Abbreviation post_attempt :=
  (ModelClient.post_attempt http_post _base_url force).
Local Abbreviation _post_single_to_backend :=
  (ModelClient._post_single_to_backend http_post _base_url force).
Local Abbreviation _post_to_backend :=
  (ModelClient._post_to_backend http_post _base_url force).
Local Abbreviation __check_if_server_online :=
  (ModelClient.__check_if_server_online http_get _base_url).
Local Abbreviation in_path_map :=
  (ModelClientBase.in_path_map ModelClient.mo_type_eqb
     (ModelClient._get_path_map)).
Local Abbreviation backoff := (wait_exponential 2 1 MAX_WAIT).

(** The message of the error raised for a rejected object: the
    [description] of the response body if it has one, else the reason. *)
Local Abbreviation message_of resp fields :=
  (match find (fun kv : string * json => String.eqb (fst kv) "description")
               fields with
   | Some kv => snd kv
   | None => JStr (reason resp)
   end).

Lemma post_attempt_no_session (t : ModelClient.mo_type) (x : ModelClient.mo_obj)
      (w : world) :
  _session w = None ->
  post_attempt t x w = (Err NotInitializedError, w).
Proof.
  intros H. unfold ModelClient.post_attempt, bind,
    ModelClientBase._verify_session. now rewrite H.
Qed.

(** An attempt awaits no delay and asks for at most one POST. *)
Lemma post_attempt_world (t : ModelClient.mo_type) (x : ModelClient.mo_obj)
      (w : world) :
  snd (post_attempt t x w) = w
  \/ exists url, snd (post_attempt t x w)
                 = log_post url (ModelClient.jsonable_encoder x) w.
Proof.
  unfold ModelClient.post_attempt, bind, lift, ModelClientBase._verify_session,
    ModelClientBase.session_post.
  destruct (_session w) as [s|]; [|now left].
  destruct (ModelClient.path_of t) as [path|]; [|now left].
  right. exists (post_url path).
  destruct (closed s w); [reflexivity|].
  destruct (http_post _ _ _) as [e|resp]; [reflexivity|].
  destruct (response_json resp) as [decoded|]; [|reflexivity].
  destruct (raise_for_status resp); [reflexivity|].
  destruct (py_in "description" decoded) as [[|]|]; try reflexivity.
  destruct (py_getitem decoded "description"); reflexivity.
Qed.

Lemma post_attempt_sleeps (t : ModelClient.mo_type) (x : ModelClient.mo_obj)
      (w : world) :
  sleeps (snd (post_attempt t x w)) = sleeps w.
Proof.
  destruct (post_attempt_world t x w) as [->|[url ->]]; reflexivity.
Qed.

Lemma post_attempt_posts (t : ModelClient.mo_type) (x : ModelClient.mo_obj)
      (w : world) :
  length (posts (snd (post_attempt t x w))) <= S (length (posts w)).
Proof.
  destruct (post_attempt_world t x w) as [->|[url ->]]; simpl;
    rewrite ?length_app; simpl; lia.
Qed.

(** An attempt whose POST fails, in the network or because the session is
    closed, raises that failure. *)
Lemma post_attempt_post_fails (t : ModelClient.mo_type)
      (x : ModelClient.mo_obj) (w w1 : world) (s : nat) (path : string)
      (e : exn) :
  _session w = Some s ->
  ModelClient.path_of t = Ok path ->
  session_post s (post_url path) (ModelClient.jsonable_encoder x) w
  = (Err e, w1) ->
  post_attempt t x w = (Err e, w1).
Proof.
  intros Hs Hp Hpost. unfold ModelClient.post_attempt, bind, lift,
    ModelClientBase._verify_session.
  now rewrite Hs, Hp, Hpost.
Qed.

(** An attempt whose POST is answered with an error status raises as
    well. *)
Lemma post_attempt_error_status (t : ModelClient.mo_type)
      (x : ModelClient.mo_obj) (w w1 : world) (s : nat) (path : string)
      (resp : response) :
  _session w = Some s ->
  ModelClient.path_of t = Ok path ->
  session_post s (post_url path) (ModelClient.jsonable_encoder x) w
  = (Ok resp, w1) ->
  (400 <= status resp)%Z ->
  exists e, post_attempt t x w = (Err e, w1).
Proof.
  intros Hs Hp Hpost Hstatus. unfold ModelClient.post_attempt, bind, lift,
    ModelClientBase._verify_session.
  rewrite Hs, Hp, Hpost.
  destruct (response_json resp) as [decoded|]; [|eexists; reflexivity].
  unfold raise_for_status. destruct (Z.leb_spec 400 (status resp)); [|lia].
  destruct (py_in "description" decoded) as [[|]|];
    [|eexists; reflexivity|eexists; reflexivity].
  destruct (py_getitem decoded "description"); eexists; reflexivity.
Qed.

(** What an open session makes of a request: it asks the backend. *)
Lemma session_post_open (s : nat) (url : string) (payload : json) (w : world) :
  closed s w = false ->
  session_post s url payload w
  = (match http_post (posts w) url payload with
     | inl e => Err e
     | inr resp => Ok resp
     end, log_post url payload w).
Proof.
  intros Hc. unfold ModelClientBase.session_post. rewrite Hc.
  destruct (http_post _ _ _); reflexivity.
Qed.

(** An attempt that reaches the backend and fails in the network raises
    the network error. *)
Lemma post_attempt_network_failure (t : ModelClient.mo_type)
      (x : ModelClient.mo_obj) (w : world) (s : nat) (path : string) (e : exn) :
  _session w = Some s ->
  closed s w = false ->
  ModelClient.path_of t = Ok path ->
  http_post (posts w) (post_url path) (ModelClient.jsonable_encoder x) = inl e ->
  post_attempt t x w
  = (Err e, log_post (post_url path) (ModelClient.jsonable_encoder x) w).
Proof.
  intros Hs Hc Hp Hb. apply (post_attempt_post_fails t x w _ s path e Hs Hp).
  rewrite (session_post_open s _ _ w Hc). now rewrite Hb.
Qed.

(** What an attempt raises when the backend answers with an error status
    depends on the response alone.  With a JSON object as body it is the
    [ClientResponseError], carrying the description if there is one. *)
Lemma post_attempt_error_response (t : ModelClient.mo_type)
      (x : ModelClient.mo_obj) (s : nat) (path : string) (resp : response) :
  ModelClient.path_of t = Ok path ->
  (400 <= status resp)%Z ->
  exists e,
    (forall fields,
        body resp = Some (JObj fields) ->
        e = ClientResponseError (status resp) (message_of resp fields))
    /\ forall w,
        _session w = Some s ->
        closed s w = false ->
        http_post (posts w) (post_url path) (ModelClient.jsonable_encoder x)
        = inr resp ->
        post_attempt t x w
        = (Err e, log_post (post_url path) (ModelClient.jsonable_encoder x) w).
Proof.
  intros Hp Hstatus.
  exists (match response_json resp with
          | Err e => e
          | Ok decoded =>
              match py_in "description" decoded with
              | Err e => e
              | Ok true =>
                  match py_getitem decoded "description" with
                  | Ok description => ClientResponseError (status resp) description
                  | Err e => e
                  end
              | Ok false => ClientResponseError (status resp) (JStr (reason resp))
              end
          end).
  split.
  - intros fields Hbody. unfold body in Hbody. unfold response_json.
    destruct (served resp) as [value| |]; try discriminate.
    injection Hbody as ->. unfold py_in, py_getitem.
    destruct (existsb _ fields) eqn:E.
    + apply existsb_find in E as [kv E]. rewrite E. reflexivity.
    + apply existsb_find_none in E. rewrite E. reflexivity.
  - intros w Hs Hc Hb. unfold ModelClient.post_attempt, bind, lift,
      ModelClientBase._verify_session.
    rewrite Hs, Hp, (session_post_open s _ _ w Hc), Hb.
    destruct (response_json resp) as [decoded|]; [|reflexivity].
    unfold raise_for_status. destruct (Z.leb_spec 400 (status resp)); [|lia].
    destruct (py_in "description" decoded) as [[|]|]; try reflexivity.
    destruct (py_getitem decoded "description"); reflexivity.
Qed.

(** With a JSON object as body the error is the [ClientResponseError],
    carrying the description if there is one. *)
Lemma post_attempt_rejected (t : ModelClient.mo_type)
      (x : ModelClient.mo_obj) (w : world) (s : nat) (path : string)
      (resp : response) (fields : list (string * json)) :
  _session w = Some s ->
  closed s w = false ->
  ModelClient.path_of t = Ok path ->
  http_post (posts w) (post_url path) (ModelClient.jsonable_encoder x)
  = inr resp ->
  (400 <= status resp)%Z ->
  body resp = Some (JObj fields) ->
  post_attempt t x w
  = (Err (ClientResponseError (status resp) (message_of resp fields)),
     log_post (post_url path) (ModelClient.jsonable_encoder x) w).
Proof.
  intros Hs Hc Hp Hb Hstatus Hbody.
  destruct (post_attempt_error_response t x s path resp Hp Hstatus)
    as (e & He & Hattempt).
  rewrite <- (He fields Hbody). now apply Hattempt.
Qed.

(** Seven attempts in a row that raise the same error, each after asking
    for the POST. *)
Lemma post_single_all_raise (t : ModelClient.mo_type)
      (x : ModelClient.mo_obj) (w : world) (s : nat) (url : string) (e : exn) :
  _session w = Some s ->
  closed s w = false ->
  (forall w0,
      _session w0 = Some s -> closed s w0 = false ->
      post_attempt t x w0
      = (Err e, log_post url (ModelClient.jsonable_encoder x) w0)) ->
  exists w',
    _post_single_to_backend t x w = (Err (RetryError e), w')
    /\ posts w' = posts w ++ repeat (url, ModelClient.jsonable_encoder x) 7
    /\ sleeps w' = sleeps w ++ [2; 4; 8; 16; 32; 64]%Z.
Proof.
  intros Hs Hc Hattempt.
  eexists. split; [|split].
  - unfold ModelClient._post_single_to_backend, retry.
    apply retry_loop_raises.
    do 6 (eapply attempt_raises; [apply Hattempt; [exact Hs | exact Hc]|]).
    apply last_attempt_raises. apply Hattempt; [exact Hs | exact Hc].
  - simpl. rewrite <- !app_assoc. reflexivity.
  - simpl. rewrite <- !app_assoc. reflexivity.
Qed.

(** Seven rejected attempts in a row. *)
Lemma post_single_rejected (t : ModelClient.mo_type)
      (x : ModelClient.mo_obj) (w : world) (s : nat) (path : string)
      (resp : response) (fields : list (string * json)) :
  _session w = Some s ->
  closed s w = false ->
  ModelClient.path_of t = Ok path ->
  (forall log url payload, http_post log url payload = inr resp) ->
  (400 <= status resp)%Z ->
  body resp = Some (JObj fields) ->
  exists w',
    _post_single_to_backend t x w
    = (Err (RetryError (ClientResponseError (status resp)
                          (message_of resp fields))), w')
    /\ length (posts w') = length (posts w) + 7
    /\ sleeps w' = sleeps w ++ [2; 4; 8; 16; 32; 64]%Z.
Proof.
  intros Hs Hc Hp Hb Hstatus Hbody.
  destruct (post_single_all_raise t x w s (post_url path)
              (ClientResponseError (status resp) (message_of resp fields))
              Hs Hc) as (w' & Hrun & Hposts & Hsleeps).
  - intros w0 Hs0 Hc0. eapply post_attempt_rejected; eauto.
  - exists w'. split; [exact Hrun|]. split; [|exact Hsleeps].
    rewrite Hposts, length_app, repeat_length. reflexivity.
Qed.

Lemma mapped_has_path (t : ModelClient.mo_type) :
  in_path_map t = true -> exists path, ModelClient.path_of t = Ok path.
Proof.
  destruct t; intros H; try discriminate H; eexists; reflexivity.
Qed.


(** An attempt answered with a JSON body and a status below 400 returns
    the body. *)
Lemma post_attempt_accepted (t : ModelClient.mo_type) (x : ModelClient.mo_obj)
      (w : world) (s : nat) (path : string) (resp : response) (j : json) :
  _session w = Some s ->
  closed s w = false ->
  ModelClient.path_of t = Ok path ->
  http_post (posts w) (post_url path) (ModelClient.jsonable_encoder x)
  = inr resp ->
  (status resp < 400)%Z ->
  body resp = Some j ->
  post_attempt t x w
  = (Ok j, log_post (post_url path) (ModelClient.jsonable_encoder x) w).
Proof.
  intros Hs Hc Hp Hb Hstatus Hbody. unfold ModelClient.post_attempt, bind, lift,
    ModelClientBase._verify_session.
  rewrite Hs, Hp, (session_post_open s _ _ w Hc), Hb.
  unfold body in Hbody. unfold response_json.
  destruct (served resp) as [value| |]; try discriminate.
  injection Hbody as ->.
  unfold raise_for_status. destruct (Z.leb_spec 400 (status resp)); [lia|].
  reflexivity.
Qed.

(** Posting one object touches what asking for a POST and awaiting a
    delay touch, and nothing else. *)
Lemma post_single_frame {B} (field : world -> B) (t : ModelClient.mo_type)
      (x : ModelClient.mo_obj) (w : world) :
  (forall u p w, field (log_post u p w) = field w) ->
  (forall d w, field (log_sleep d w) = field w) ->
  field (snd (_post_single_to_backend t x w)) = field w.
Proof.
  intros Hpost Hsleep.
  unfold ModelClient._post_single_to_backend, retry. change (7 - 1) with 6.
  generalize 1 at 2. generalize 6. intros k. revert w.
  induction k as [|k IH]; intros w n; simpl;
    destruct (post_attempt_world t x w) as [Hw|[url Hw]];
    destruct (post_attempt t x w) as [[a|e] w1];
    simpl in Hw; subst w1; simpl; rewrite ?IH, ?Hsleep, ?Hpost; reflexivity.
Qed.

(** On a backend that answers every POST with a JSON body and a status
    below 400, posting an object of a mapped class through an open session
    succeeds at the first attempt. *)
Lemma post_single_accepted (t : ModelClient.mo_type) (x : ModelClient.mo_obj)
      (s : nat) (w : world) :
  (forall log url payload,
      exists resp j,
        http_post log url payload = inr resp
        /\ (status resp < 400)%Z /\ body resp = Some j) ->
  in_path_map t = true ->
  _session w = Some s /\ closed s w = false ->
  exists j w',
    _post_single_to_backend t x w = (Ok j, w')
    /\ (_session w' = Some s /\ closed s w' = false)
    /\ length (posts w') = S (length (posts w)).
Proof.
  intros Hb Hmap [Hs Hc].
  destruct (mapped_has_path t Hmap) as [path Hp].
  destruct (Hb (posts w) (post_url path) (ModelClient.jsonable_encoder x))
    as (resp & j & Hresp & Hstatus & Hbody).
  exists j. eexists.
  unfold ModelClient._post_single_to_backend, retry. simpl.
  rewrite (post_attempt_accepted t x w s path resp j Hs Hc Hp Hresp Hstatus
             Hbody).
  split; [reflexivity|]. split; [split; [exact Hs | exact Hc]|].
  simpl. rewrite length_app. simpl. lia.
Qed.

(** *** Claims on the single-object submitter *)

(** C2, as the code has it: the retry decorator re-runs the attempt after
    every exception it raises, the exception of an HTTP error response
    included.  A call makes at most 7 attempts with the delays 2, 4, 8,
    16, 32, 64 between them (multiplier 2, never below 1), and an error it
    surfaces is a [RetryError] after the seventh attempt.  While an open
    session is held and the backend answers every POST with the same
    response of an error status, every attempt raises the same exception,
    the request is asked for 7 times, and that exception comes back
    wrapped in the [RetryError]; it is the [ClientResponseError], with the
    description of the body or else the reason as message, when the body
    is a JSON object. *)
Theorem every_failed_attempt_is_retried (t : ModelClient.mo_type)
        (x : ModelClient.mo_obj) (w : world) :
  (exists j,
      j <= 6
      /\ sleeps (snd (_post_single_to_backend t x w))
         = sleeps w ++ firstn j [2; 4; 8; 16; 32; 64]%Z
      /\ length (posts (snd (_post_single_to_backend t x w)))
         <= length (posts w) + S j
      /\ (forall e,
             fst (_post_single_to_backend t x w) = Err e ->
             j = 6 /\ exists last, e = RetryError last))
  /\ (forall s path resp,
         _session w = Some s ->
         closed s w = false ->
         ModelClient.path_of t = Ok path ->
         (forall log url payload, http_post log url payload = inr resp) ->
         (400 <= status resp)%Z ->
         exists last w',
           post_attempt t x w
           = (Err last,
              log_post (post_url path) (ModelClient.jsonable_encoder x) w)
           /\ _post_single_to_backend t x w = (Err (RetryError last), w')
           /\ posts w'
              = posts w
                ++ repeat (post_url path, ModelClient.jsonable_encoder x) 7
           /\ sleeps w' = sleeps w ++ [2; 4; 8; 16; 32; 64]%Z
           /\ (forall fields,
                  body resp = Some (JObj fields) ->
                  last = ClientResponseError (status resp)
                           (message_of resp fields))).
Proof.
  split.
  - unfold ModelClient._post_single_to_backend, retry.
    change (7 - 1) with 6.
    destruct (retry_loop_budget backoff (post_attempt t x)
                (post_attempt_sleeps t x) (post_attempt_posts t x) 6 1 w)
      as (j & Hj & Hsl & Hpo & He).
    exists j. split; [exact Hj | split; [| split; [exact Hpo |]]].
    + rewrite Hsl. f_equal.
      do 7 (destruct j as [|j]; [reflexivity|]). lia.
    + intros e H. split; [eapply He, H|].
      destruct (retry_loop backoff 6 1 (post_attempt t x) w) as [r w'] eqn:E.
      simpl in H. subst r.
      apply retry_loop_err in E as (last & -> & _). eauto.
  - intros s path resp Hs Hc Hp Hb Hstatus.
    destruct (post_attempt_error_response t x s path resp Hp Hstatus)
      as (last & Hlast & Hattempt).
    destruct (post_single_all_raise t x w s (post_url path) last Hs Hc)
      as (w' & Hrun & Hposts & Hsleeps).
    { intros w0 Hs0 Hc0. apply Hattempt; auto. }
    exists last, w'. split; [apply Hattempt; auto|]. auto.
Qed.

(** C4, as the code has it: while an open session is held, when the
    backend answers the POST of an object with 422 and the body
    [{"description": "invalid uuid"}], the attempt raises the response
    error with the message "invalid uuid"; the attempt is retried, and
    after seven such answers [_post_single_to_backend] fails with the
    [RetryError] that wraps this error. *)
Theorem invalid_uuid_is_reported (t : ModelClient.mo_type)
        (x : ModelClient.mo_obj) (w : world) (s : nat) (path : string)
        (resp : response) :
  _session w = Some s ->
  closed s w = false ->
  ModelClient.path_of t = Ok path ->
  (forall log url payload, http_post log url payload = inr resp) ->
  status resp = 422%Z ->
  body resp = Some (JObj [("description", JStr "invalid uuid")]) ->
  post_attempt t x w
  = (Err (BackendValidationError 422 (JStr "invalid uuid")),
     log_post (post_url path) (ModelClient.jsonable_encoder x) w)
  /\ exists w',
      _post_single_to_backend t x w
      = (Err (RetryError (BackendValidationError 422 (JStr "invalid uuid"))),
         w')
      /\ length (posts w') = length (posts w) + 7.
Proof.
  intros Hs Hc Hp Hb Hstatus Hbody. unfold BackendValidationError.
  rewrite <- Hstatus. split.
  - rewrite (post_attempt_rejected t x w s path resp _ Hs Hc Hp (Hb _ _ _)
               ltac:(lia) Hbody). reflexivity.
  - destruct (post_single_rejected t x w s path resp _ Hs Hc Hp Hb
                ltac:(lia) Hbody) as (w' & H & Hposts & _).
    exists w'. split; [exact H | exact Hposts].
Qed.

(** C9, as the code has it: with no session open, [_verify_session], the
    health probe, the chunk post and an attempt to post one object each
    fail with the not-initialized error and leave the world untouched.
    [_post_single_to_backend] retries that attempt like any other: it
    fails with the [RetryError] wrapping the not-initialized error; it
    opens no session and issues no request. *)
Theorem no_session_no_network (t : ModelClient.mo_type)
        (x : ModelClient.mo_obj) (data : list ModelClient.mo_obj)
        (attempts : nat) (delay : Z) (w : world) :
  _session w = None ->
  ModelClientBase._verify_session w = (Err NotInitializedError, w)
  /\ __check_if_server_online attempts delay w = (Err NotInitializedError, w)
  /\ _post_to_backend t data w = (Err NotInitializedError, w)
  /\ post_attempt t x w = (Err NotInitializedError, w)
  /\ exists w',
      _post_single_to_backend t x w
      = (Err (RetryError NotInitializedError), w')
      /\ _session w' = None
      /\ open_sessions w' = open_sessions w
      /\ created w' = created w
      /\ posts w' = posts w
      /\ gets w' = gets w.
Proof.
  intros H.
  assert (Hv : ModelClientBase._verify_session w = (Err NotInitializedError, w)).
  { unfold ModelClientBase._verify_session. now rewrite H. }
  split; [exact Hv|]. split; [|split; [|split]].
  - unfold ModelClient.__check_if_server_online,
      ModelClientBase.__check_if_server_online, bind. now rewrite Hv.
  - unfold ModelClient._post_to_backend, ModelClientBase._post_to_backend, bind.
    now rewrite Hv.
  - now apply post_attempt_no_session.
  - eexists. split.
    + unfold ModelClient._post_single_to_backend, retry.
      apply retry_loop_raises.
      do 6 (eapply attempt_raises; [apply post_attempt_no_session; exact H|]).
      apply last_attempt_raises. apply post_attempt_no_session. exact H.
    + simpl. repeat split. exact H.
Qed.

(** C10: when the seven attempts of [_post_single_to_backend] all raise,
    the caller gets the [RetryError] that wraps the exception of the last
    attempt, and every error the function surfaces is of that form.  An
    attempt whose POST is answered with an HTTP error status raises like
    one whose POST failed, so it counts as one of the seven. *)
Theorem retry_error_wraps_last_attempt (t : ModelClient.mo_type)
        (x : ModelClient.mo_obj) (w : world) :
  (forall last w',
      all_attempts_raise backoff (post_attempt t x) 7 1 w last w' ->
      _post_single_to_backend t x w = (Err (RetryError last), w'))
  /\ (forall e w',
         _post_single_to_backend t x w = (Err e, w') ->
         exists last,
           e = RetryError last
           /\ all_attempts_raise backoff (post_attempt t x) 7 1 w last w')
  /\ (forall s path,
         _session w = Some s ->
         ModelClient.path_of t = Ok path ->
         (forall resp w1,
             session_post s (post_url path) (ModelClient.jsonable_encoder x) w
             = (Ok resp, w1) ->
             (400 <= status resp)%Z ->
             exists e, post_attempt t x w = (Err e, w1))
         /\ (forall e w1,
                session_post s (post_url path)
                  (ModelClient.jsonable_encoder x) w
                = (Err e, w1) ->
                post_attempt t x w = (Err e, w1))
         /\ (closed s w = false ->
             (forall resp,
                 http_post (posts w) (post_url path)
                           (ModelClient.jsonable_encoder x) = inr resp ->
                 (400 <= status resp)%Z ->
                 exists e,
                   post_attempt t x w
                   = (Err e, log_post (post_url path)
                               (ModelClient.jsonable_encoder x) w))
             /\ (forall e,
                    http_post (posts w) (post_url path)
                              (ModelClient.jsonable_encoder x) = inl e ->
                    post_attempt t x w
                    = (Err e, log_post (post_url path)
                                (ModelClient.jsonable_encoder x) w)))).
Proof.
  split; [|split].
  - intros last w' H. now apply retry_loop_raises.
  - intros e w' H. now apply retry_loop_err.
  - intros s path Hs Hp. split; [|split].
    + intros resp w1 Hpost Hstatus. eapply post_attempt_error_status; eauto.
    + intros e w1 Hpost. eapply post_attempt_post_fails; eauto.
    + intros Hc. split.
      * intros resp Hb Hstatus.
        eapply post_attempt_error_status; eauto.
        rewrite (session_post_open s _ _ w Hc). now rewrite Hb.
      * intros e Hb. eapply post_attempt_network_failure; eauto.
Qed.

End SingleObject.

(** Loading objects leaves the connector of the client as it is. *)
Lemma load_keeps_connector
      (http_post : list (string * json) -> string -> json -> exn + response)
      (completion_order :
         list (result (list json)) -> list (result (list json)))
      (_base_url : string) (_chunk_size : Z) (force : bool)
      (objs : list ModelClient.mo_obj) (d : bool) (w : world) :
  tcp_connector
    (snd (ModelClient.load_mo_objs http_post completion_order _base_url
            _chunk_size force objs d w))
  = tcp_connector w.
Proof.
  unfold ModelClient.load_mo_objs. apply submit_payloads_frame.
  - reflexivity.
  - intros t x w0. apply post_single_frame; reflexivity.
Qed.

(** ** The concrete client *)

Section Scenarios.
Import ModelClient Scenario.

Local Abbreviation load accepting_or_not order chunk_size objs w :=
  (load_mo_objs accepting_or_not order base_url chunk_size false objs false w).
Local Abbreviation post_one backend t x w :=
  (_post_single_to_backend backend base_url false t x w).

Lemma mo_type_name_injective (a b : mo_type) :
  type_name a = type_name b -> a = b.
Proof.
  destruct a, b; intros H; (reflexivity || discriminate H).
Qed.

Lemma mo_issubclass_refl (t : mo_type) : issubclass t t = true.
Proof.
  destruct t; reflexivity.
Qed.

Lemma in_task_order_permutation (rs : list (result (list json))) :
  Permutation (in_task_order rs) rs.
Proof.
  apply Permutation_refl.
Qed.

Lemma post_single_keeps_pbar backend (t : mo_type) (x : mo_obj) (w : world) :
  pbar (snd (post_one backend t x w)) = pbar w.
Proof.
  unfold _post_single_to_backend, retry. change (7 - 1) with 6.
  generalize 1 at 2. generalize 6. intros k. revert w.
  induction k as [|k IH]; intros w n; simpl;
    destruct (post_attempt_world backend base_url false t x w) as [Hw|[url Hw]];
    destruct (post_attempt backend base_url false t x w) as [[a|e] w1];
    simpl in Hw; subst w1; try reflexivity; rewrite IH; reflexivity.
Qed.

(** *** C1 *)

(** Two employees with an organisation unit between them are put in two
    groups, both keyed "Employee". *)
Lemma equal_types_apart_are_split :
  ModelClientBase.groups mo_class type_name
    [employee 1; org_unit 2; employee 3]
  = [("Employee", [employee 1]); ("OrganisationUnit", [org_unit 2]);
     ("Employee", [employee 3])]
  /\ ~ NoDup (map fst (ModelClientBase.groups mo_class type_name
                         [employee 1; org_unit 2; employee 3])).
Proof.
  split; [reflexivity|].
  intros H. inversion H as [|k ks Hnotin _]; subst.
  apply Hnotin. right. left. reflexivity.
Qed.

(** *** C2 *)

(** A rejected object is posted seven times, and the error that comes
    back is no response error. *)
Lemma rejected_object_is_retried :
  length (posts (snd (post_one rejecting Employee (employee 1) in_session))) = 7
  /\ forall code message,
      fst (post_one rejecting Employee (employee 1) in_session)
      <> Err (BackendValidationError code message).
Proof.
  split; [reflexivity|]. intros code message. discriminate.
Qed.

Lemma every_failed_attempt_is_retried_witness :
  exists w',
    post_one rejecting Employee (employee 1) in_session
    = (Err (RetryError (ClientResponseError 422 (JStr "invalid uuid"))), w')
    /\ length (posts w') = 7
    /\ sleeps w' = [2; 4; 8; 16; 32; 64]%Z.
Proof.
  destruct (every_failed_attempt_is_retried rejecting base_url false Employee
              (employee 1) in_session) as [_ H].
  destruct (H 0 "/service/e/create"
              (mkResponse 422 "Unprocessable Entity"
                 (Json (JObj [("description", JStr "invalid uuid")]))))
    as (last & w' & _ & Hrun & Hposts & Hsleeps & Hlast).
  - reflexivity.
  - reflexivity.
  - reflexivity.
  - intros log url payload. reflexivity.
  - simpl. lia.
  - rewrite (Hlast [("description", JStr "invalid uuid")] eq_refl) in Hrun.
    exists w'. split; [exact Hrun|]. split; [|exact Hsleeps].
    rewrite Hposts. reflexivity.
Defined.

(** *** C3 *)

(** The organisation unit is uploaded after the employee whatever finishes
    first; a single iterator over both tasks would hand back the unit
    first when its task is the first to finish. *)
Lemma group_order_beats_completion_order :
  fst (load accepting last_first 100%Z [employee 1; org_unit 2] in_session)
  = Ok [JObj [("n", JNum 1)]; JObj [("n", JNum 2)]]
  /\ fst (load_mo_objs_single_iterator last_first
            [employee 1; org_unit 2] in_session)
     = Ok [JObj [("n", JNum 2)]; JObj [("n", JNum 1)]]
  /\ fst (load accepting last_first 100%Z [employee 1; org_unit 2] in_session)
     <> fst (load_mo_objs_single_iterator last_first
               [employee 1; org_unit 2] in_session).
Proof.
  split; [reflexivity|]. split; [reflexivity|]. discriminate.
Qed.

Lemma submit_payloads_drains_group_by_group_witness :
  exists cgs consumed,
    ModelClientBase.chunk_groups 2
      (ModelClientBase.groups mo_class type_name
         [employee 1; org_unit 2; employee 3]) = Ok cgs
    /\ fst (load accepting in_task_order 2%Z
              [employee 1; org_unit 2; employee 3] in_session)
       = Ok (concat (concat consumed))
    /\ pbar_updates
         (pbar (snd (load accepting in_task_order 2%Z
                       [employee 1; org_unit 2; employee 3] in_session)))
       = map (@length json) (concat consumed).
Proof.
  destruct (submit_payloads_drains_group_by_group mo_type mo_obj mo_type_eqb
              mo_class type_name type_repr issubclass in_task_order 2%Z
              (_get_path_map)
              (_post_single_to_backend accepting base_url false)
              [employee 1; org_unit 2; employee 3] false in_session
              (snd (load accepting in_task_order 2%Z
                      [employee 1; org_unit 2; employee 3] in_session))
              [JObj [("n", JNum 1)]; JObj [("n", JNum 2)]; JObj [("n", JNum 3)]])
    as (cgs & consumed & Hcg & _ & Hres & Hbar).
  - exact in_task_order_permutation.
  - intros t x w. apply post_single_keeps_pbar.
  - vm_compute. reflexivity.
  - exists cgs, consumed. split; [exact Hcg|]. split.
    + rewrite <- Hres. vm_compute. reflexivity.
    + exact Hbar.
Defined.

(** *** C5 *)

(** The employee is rejected by the backend, and that failure is what the
    caller sees; the role, whose class is not mapped, is never looked at. *)
Lemma earlier_failure_hides_unknown_type :
  ModelClientBase.in_path_map mo_type_eqb (_get_path_map) Role = false
  /\ fst (load rejecting in_task_order 100%Z [employee 1; role 2] in_session)
     = Err (RetryError (ClientResponseError 422 (JStr "invalid uuid")))
  /\ fst (load rejecting in_task_order 100%Z [employee 1; role 2] in_session)
     <> Err (UnknownTypeError (type_repr Role)).
Proof.
  split; [reflexivity|]. split; [reflexivity|]. discriminate.
Qed.

(** On a backend that accepts the employee the role is reached: the
    caller gets the unknown-type error, after the one POST of the
    employee. *)
Lemma unmapped_type_fails_closed_witness :
  exists w',
    load accepting in_task_order 100%Z [employee 1; role 2] in_session
    = (Err (UnknownTypeError (type_repr Role)), w')
    /\ length (posts w') = 1.
Proof.
  destruct (unmapped_type_fails_closed mo_type mo_obj mo_type_eqb mo_class
              type_name type_repr issubclass in_task_order 100%Z
              (_get_path_map)
              (_post_single_to_backend accepting base_url false) (role 2))
    as (_ & _ & _ & _ & H).
  - exact mo_type_name_injective.
  - exact mo_issubclass_refl.
  - unfold maxsize. lia.
  - exact in_task_order_permutation.
  - reflexivity.
  - apply (H 0 [employee 1] [] false in_session).
    + intros y [<-|[]]. reflexivity.
    + intros t x w Hmap Hw. apply post_single_accepted; [|exact Hmap|exact Hw].
      intros log url payload. eexists. eexists.
      split; [reflexivity|]. split; [simpl; lia | reflexivity].
    + split; reflexivity.
Defined.

(** *** C6 *)

(** With a chunk size of 0 the employee is dropped: nothing fails and
    nothing comes back. *)
Lemma zero_chunk_size_drops_the_input :
  load accepting in_task_order 0%Z [employee 1] in_session
  = (Ok [], in_session)
  /\ length (@nil json) <> length [employee 1].
Proof.
  split; [reflexivity | discriminate].
Qed.

Lemma submit_payloads_count_witness :
  exists results w',
    load accepting in_task_order 2%Z
      [employee 1; org_unit 2; employee 3; employee 4; employee 5] in_session
    = (Ok results, w')
    /\ length results = 5.
Proof.
  eexists. eexists. split; [lazy; reflexivity|].
  refine (proj1 (submit_payloads_count mo_type mo_obj mo_type_eqb mo_class
                   type_name type_repr issubclass in_task_order 2%Z
                   (_get_path_map)
                   (_post_single_to_backend accepting base_url false)
                   [employee 1; org_unit 2; employee 3; employee 4; employee 5]
                   false in_session _ _ in_task_order_permutation _) _).
  - lazy. reflexivity.
  - discriminate.
Defined.

(** *** C7 *)



(** *** C4 *)

(** What the caller of [_post_single_to_backend] gets is the wrapper, not
    the response error. *)
Lemma invalid_uuid_surfaces_wrapped :
  fst (post_one rejecting Employee (employee 1) in_session)
  = Err (RetryError (BackendValidationError 422 (JStr "invalid uuid")))
  /\ fst (post_one rejecting Employee (employee 1) in_session)
     <> Err (BackendValidationError 422 (JStr "invalid uuid")).
Proof.
  split; [reflexivity | discriminate].
Qed.

Lemma invalid_uuid_is_reported_witness :
  fst (post_attempt rejecting base_url false Employee (employee 1) in_session)
  = Err (BackendValidationError 422 (JStr "invalid uuid"))
  /\ fst (post_one rejecting Employee (employee 1) in_session)
     = Err (RetryError (BackendValidationError 422 (JStr "invalid uuid"))).
Proof.
  destruct (invalid_uuid_is_reported rejecting base_url false Employee
              (employee 1) in_session 0 "/service/e/create"
              (mkResponse 422 "Unprocessable Entity"
                 (Json (JObj [("description", JStr "invalid uuid")]))))
    as [Hattempt (w' & Hsingle & _)].
  - reflexivity.
  - reflexivity.
  - reflexivity.
  - intros log url payload. reflexivity.
  - reflexivity.
  - reflexivity.
  - split; [now rewrite Hattempt | now rewrite Hsingle].
Defined.

(** *** C9 *)

(** Posting one object without a session is tried seven times, with the
    delays in between, and the error is the wrapper. *)
Lemma single_post_without_session_is_retried :
  _session no_session = None
  /\ fst (post_one accepting Employee (employee 1) no_session)
     = Err (RetryError NotInitializedError)
  /\ fst (post_one accepting Employee (employee 1) no_session)
     <> Err NotInitializedError
  /\ sleeps (snd (post_one accepting Employee (employee 1) no_session))
     = [2; 4; 8; 16; 32; 64]%Z.
Proof.
  split; [reflexivity|]. split; [reflexivity|].
  split; [discriminate | reflexivity].
Qed.

Lemma no_session_no_network_witness :
  __check_if_server_online healthy base_url 100 1 no_session
  = (Err NotInitializedError, no_session)
  /\ _post_to_backend accepting base_url false Employee [employee 1] no_session
     = (Err NotInitializedError, no_session)
  /\ posts (snd (post_one accepting Employee (employee 1) no_session)) = [].
Proof.
  destruct (no_session_no_network accepting healthy base_url false Employee
              (employee 1) [employee 1] 100 1 no_session)
    as (_ & Hprobe & Hchunk & _ & w' & Hsingle & _ & _ & _ & Hposts & _).
  - reflexivity.
  - split; [exact Hprobe|]. split; [exact Hchunk|].
    rewrite Hsingle. exact Hposts.
Defined.

(** *** C10 *)

Lemma retry_error_wraps_last_attempt_witness :
  exists w',
    post_one rejecting Employee (employee 1) in_session
    = (Err (RetryError (ClientResponseError 422 (JStr "invalid uuid"))), w').
Proof.
  eexists.
  apply (proj1 (retry_error_wraps_last_attempt rejecting base_url false
                  Employee (employee 1) in_session)).
  do 6 (eapply attempt_raises; [vm_compute; reflexivity|]).
  apply last_attempt_raises. vm_compute. reflexivity.
Defined.

End Scenarios.

(** * Further properties *)

(** ** Chunks *)

Section ChunkSizes.
Context {A : Type}.

Lemma take_chunks_sizes (n fuel : nat) (l : list A) :
  Forall (fun c => 1 <= length c <= n) (take_chunks fuel n l).
Proof.
  revert l. induction fuel as [|fuel IH]; intros l; simpl; [constructor|].
  destruct (firstn n l) as [|x c] eqn:Hc; constructor; [|apply IH].
  rewrite <- Hc. split.
  - rewrite Hc. simpl. lia.
  - apply firstn_le_length.
Qed.

Lemma take_chunks_length (n : nat) :
  1 <= n ->
  forall fuel (l : list A),
    length l <= fuel ->
    length (take_chunks fuel n l) = (length l + n - 1) / n.
Proof.
  intros Hn fuel. induction fuel as [|fuel IH]; intros l Hl.
  - destruct l; [|simpl in Hl; lia]. simpl.
    symmetry. apply Nat.div_small. lia.
  - simpl. destruct (firstn n l) as [|x c] eqn:Hc.
    + destruct l as [|y l]; [|destruct n; [lia | discriminate]].
      simpl. symmetry. apply Nat.div_small. lia.
    + simpl. assert (Hpos : 1 <= length l).
      { destruct l; [destruct n; discriminate | simpl; lia]. }
      rewrite IH by (rewrite length_skipn; lia).
      rewrite length_skipn.
      destruct (Nat.le_gt_cases (length l) n) as [Hle|Hgt].
      * replace (length l - n) with 0 by lia.
        rewrite (Nat.div_small (0 + n - 1) n) by lia.
        apply (Nat.div_unique _ _ 1 (length l - 1)); lia.
      * replace (length l + n - 1) with ((length l - n + n - 1) + 1 * n) by lia.
        rewrite Nat.div_add by lia. lia.
Qed.

End ChunkSizes.

Lemma groupby_single {A} (key : A -> string) (x : A) (l : list A) :
  (forall y, In y l -> key y = key x) ->
  groupby key (x :: l) = [(key x, x :: l)].
Proof.
  revert x. induction l as [|y l IH]; intros x Hkey; [reflexivity|].
  change (groupby key (x :: y :: l))
    with (match groupby key (y :: l) with
          | (k, g) :: rest =>
              if String.eqb (key x) k then (k, x :: g) :: rest
              else (key x, [x]) :: (k, g) :: rest
          | [] => [(key x, [x])]
          end).
  rewrite (IH y).
  - rewrite (Hkey y (or_introl eq_refl)), String.eqb_refl. reflexivity.
  - intros z Hz. rewrite (Hkey y (or_introl eq_refl)).
    apply Hkey. now right.
Qed.

(** ** [ModelClientBase]: edges of the batch *)

Section BaseEdges.
Variable ty : Type.
Variable obj : Type.
Variable ty_eqb : ty -> ty -> bool.
Variable type_ : obj -> ty.
Variable type_name : ty -> string.
Variable type_repr : ty -> string.
Variable issubclass : ty -> ty -> bool.
Variable completion_order :
  list (result (list json)) -> list (result (list json)).
Variable _chunk_size : Z.
Variable _get_path_map : list (ty * string).
Variable _post_single_to_backend : ty -> obj -> M json.

Local Abbreviation groups := (ModelClientBase.groups type_ type_name).
Local Abbreviation chunk_groups := (ModelClientBase.chunk_groups _chunk_size).
Local Abbreviation in_path_map := (ModelClientBase.in_path_map ty_eqb _get_path_map).
Local Abbreviation _post_to_backend :=
  (ModelClientBase._post_to_backend _post_single_to_backend).
Local Abbreviation _submit_chunk :=
  (ModelClientBase._submit_chunk ty_eqb type_ type_repr issubclass
     _get_path_map _post_single_to_backend).
Local Abbreviation _submit_payloads :=
  (ModelClientBase._submit_payloads ty_eqb type_ type_name type_repr
     issubclass completion_order _chunk_size _get_path_map
     _post_single_to_backend).

(** With a chunk size [n] between 1 and [sys.maxsize], [m] objects of one
    class make one group of [ceil(m / n)] chunks; the chunks in order are
    the input, none is empty and none is longer than [n]. *)
Theorem one_type_chunk_count (x : obj) (rest : list obj) :
  (1 <= _chunk_size <= maxsize)%Z ->
  (forall y, In y rest -> type_name (type_ y) = type_name (type_ x)) ->
  exists chunks,
    chunk_groups (groups (x :: rest)) = Ok [(type_name (type_ x), chunks)]
    /\ length chunks
       = (length (x :: rest) + Z.to_nat _chunk_size - 1) / Z.to_nat _chunk_size
    /\ concat chunks = x :: rest
    /\ Forall (fun c => 1 <= length c <= Z.to_nat _chunk_size) chunks.
Proof.
  intros Hn Hkey.
  exists (take_chunks (length (x :: rest)) (Z.to_nat _chunk_size) (x :: rest)).
  split; [|split; [|split]].
  - unfold ModelClientBase.groups.
    rewrite (groupby_single (fun x => type_name (type_ x)) x rest Hkey).
    cbn [ModelClientBase.chunk_groups].
    rewrite chunked_in_range by lia. reflexivity.
  - apply take_chunks_length; lia.
  - apply take_chunks_concat; lia.
  - apply take_chunks_sizes.
Qed.

(** With a chunk size of 0 no chunk is made: whatever the input,
    [_submit_payloads] returns the empty list and does nothing, the
    objects are dropped without an error. *)
Theorem chunk_size_zero_uploads_nothing (objs : list obj) (d : bool)
        (w : world) :
  _chunk_size = 0%Z ->
  _submit_payloads objs d w = (Ok [], w).
Proof.
  apply submit_payloads_chunk_size_zero.
Qed.

Lemma bad_chunk_size_is_refused (x : obj) (rest : list obj) (d : bool)
      (w : world) :
  (_chunk_size < 0 \/ maxsize < _chunk_size)%Z ->
  exists msg, _submit_payloads (x :: rest) d w = (Err (ValueError msg), w).
Proof.
  intros Hn. unfold ModelClientBase._submit_payloads, bind, lift.
  unfold ModelClientBase.groups.
  destruct (groupby_cons (fun x => type_name (type_ x)) x rest)
    as (g & grest & ->).
  cbn [ModelClientBase.chunk_groups].
  destruct (chunked_out_of_range (x :: g) _chunk_size Hn) as [msg ->]. eauto.
Qed.

(** A negative chunk size is refused by [chunked] as soon as there is a
    group to split: a non-empty input fails with a [ValueError] before
    anything is sent or shown. *)
Theorem negative_chunk_size_is_refused (x : obj) (rest : list obj) (d : bool)
        (w : world) :
  (_chunk_size < 0)%Z ->
  exists msg, _submit_payloads (x :: rest) d w = (Err (ValueError msg), w).
Proof.
  intros Hn. apply bad_chunk_size_is_refused. now left.
Qed.

(** A chunk size above [sys.maxsize] is refused in the same way: a
    non-empty input fails with the [ValueError] of [islice] before
    anything is sent or shown. *)
Theorem oversized_chunk_size_is_refused (x : obj) (rest : list obj) (d : bool)
        (w : world) :
  (maxsize < _chunk_size)%Z ->
  exists msg, _submit_payloads (x :: rest) d w = (Err (ValueError msg), w).
Proof.
  intros Hn. apply bad_chunk_size_is_refused. now right.
Qed.


(** [_post_to_backend] neither swallows nor invents an error: when it
    fails, either no session was open, or the error is the one raised by
    the post of one of the chunk's objects. *)
Theorem post_to_backend_error_provenance (t : ty) (data : list obj)
        (w w' : world) (e : exn) :
  _post_to_backend t data w = (Err e, w') ->
  (_session w = None /\ e = NotInitializedError /\ w' = w)
  \/ exists x w1 w2,
      In x data /\ _post_single_to_backend t x w1 = (Err e, w2).
Proof.
  unfold ModelClientBase._post_to_backend, bind,
    ModelClientBase._verify_session.
  destruct (_session w) as [s|].
  - unfold gather. destruct (run_all _ w) as [rs w1] eqn:Hrun.
    intros H. injection H as H _. right.
    apply collect_Err in H. apply run_all_map in Hrun.
    destruct (Forall2_In_r _ _ _ Hrun _ H) as (x & Hx & wa & wb & Hsingle).
    eauto.
  - intros H. injection H as <- <-. left. auto.
Qed.

End BaseEdges.

(** ** [ModelClientBase]: an upload that goes through *)

Section BaseSuccess.
Variable ty : Type.
Variable obj : Type.
Variable ty_eqb : ty -> ty -> bool.
Variable type_ : obj -> ty.
Variable type_name : ty -> string.
Variable type_repr : ty -> string.
Variable issubclass : ty -> ty -> bool.
Variable completion_order :
  list (result (list json)) -> list (result (list json)).
Variable _chunk_size : Z.
Variable _get_path_map : list (ty * string).
Variable _post_single_to_backend : ty -> obj -> M json.
Variable s : nat.

Local Abbreviation in_path_map := (ModelClientBase.in_path_map ty_eqb _get_path_map).
Local Abbreviation _submit_payloads :=
  (ModelClientBase._submit_payloads ty_eqb type_ type_name type_repr
     issubclass completion_order _chunk_size _get_path_map
     _post_single_to_backend).


End BaseSuccess.

(** ** [ModelClientBase]: the health probe *)

Section HealthProbe.
Variable http_get : list string -> string -> exn + response.

Local Abbreviation probe := (ModelClientBase.probe http_get).
Local Abbreviation check_endpoint := (ModelClientBase.check_endpoint http_get).

(** When the probe of an endpoint fails [k] times and then succeeds, with
    [k] below the number of attempts, [check_endpoint] succeeds after
    exactly [k + 1] GETs and [k] delays; the attempts left are not used.
    What a probe does is asked of the worlds the loop can be in: those
    with the connector as it is. *)
Theorem probe_succeeds_after (session : nat) (delay : Z) (url marker : string)
        (k : nat) :
  forall attempts w,
    k < attempts ->
    (forall w0, tcp_connector w0 = tcp_connector w ->
                length (gets w0) < length (gets w) + k ->
                is_ok (fst (probe session url marker w0)) = false) ->
    (forall w0, tcp_connector w0 = tcp_connector w ->
                length (gets w0) = length (gets w) + k ->
                is_ok (fst (probe session url marker w0)) = true) ->
    exists w',
      check_endpoint session attempts delay url marker w = (Ok tt, w')
      /\ gets w' = gets w ++ repeat url (S k)
      /\ sleeps w' = sleeps w ++ repeat delay k
      /\ length (printed w') = length (printed w) + k.
Proof.
  induction k as [|k IH]; intros attempts w Hk Hfail Hok;
    destruct attempts as [|n]; try lia.
  - specialize (Hok w eq_refl (eq_sym (Nat.add_0_r _))). simpl.
    pose proof (probe_world http_get session url marker w) as Hw.
    destruct (probe session url marker w) as [[u|e] w1]; [|discriminate].
    simpl in Hw. subst w1. exists (log_get url w). simpl.
    rewrite app_nil_r. repeat split. lia.
  - destruct (check_endpoint_step http_get session n delay url marker w)
      as [e ->].
    { apply Hfail; [reflexivity | lia]. }
    destruct (IH n (log_sleep delay (log_print e (log_get url w))))
      as (w' & -> & Hg & Hs & Hp).
    + lia.
    + intros w0 Hc0 H0. apply Hfail; [exact Hc0|]. simpl in H0.
      rewrite length_app in H0. simpl in H0. lia.
    + intros w0 Hc0 H0. apply Hok; [exact Hc0|]. simpl in H0.
      rewrite length_app in H0. simpl in H0. lia.
    + exists w'. simpl in Hg, Hs, Hp. rewrite length_app in Hp. simpl in Hp.
      rewrite Hg, Hs, <- !app_assoc. repeat split. lia.
Qed.

End HealthProbe.

(** ** [ModelClient]: retries, requests and the whole pipeline *)

Lemma retry_loop_requests {A} (wait : nat -> Z) (fn : M A)
      (request : string * json) :
  (forall w, posts (snd (fn w)) = posts w
             \/ posts (snd (fn w)) = posts w ++ [request]) ->
  forall k n w,
  exists j,
    j <= S k
    /\ posts (snd (retry_loop wait k n fn w)) = posts w ++ repeat request j.
Proof.
  intros Hfn. induction k as [|k IH]; intros n w; simpl;
    pose proof (Hfn w) as Hw; destruct (fn w) as [[a|e] w1];
    simpl in Hw |- *.
  - destruct Hw as [->| ->]; [exists 0 | exists 1]; simpl;
      rewrite ?app_nil_r; split; auto.
  - destruct Hw as [->| ->]; [exists 0 | exists 1]; simpl;
      rewrite ?app_nil_r; split; auto.
  - destruct Hw as [->| ->]; [exists 0 | exists 1]; simpl;
      rewrite ?app_nil_r; split; auto; lia.
  - destruct (IH (S n) (log_sleep (wait n) w1)) as (j & Hj & ->). simpl.
    destruct Hw as [->| ->].
    + exists j. split; [lia | reflexivity].
    + exists (S j). split; [lia|]. simpl. now rewrite <- app_assoc.
Qed.

Section SingleObjectEdges.
Variable http_post : list (string * json) -> string -> json -> exn + response.
Variable _base_url : string.
Variable force : bool.

Local Abbreviation post_url := (ModelClient.post_url _base_url force).
Local Abbreviation post_attempt :=
  (ModelClient.post_attempt http_post _base_url force).
Local Abbreviation _post_single_to_backend :=
  (ModelClient._post_single_to_backend http_post _base_url force).
Local Abbreviation in_path_map :=
  (ModelClientBase.in_path_map ModelClient.mo_type_eqb
     (ModelClient._get_path_map)).
Local Abbreviation backoff := (wait_exponential 2 1 MAX_WAIT).

Lemma post_attempt_request (t : ModelClient.mo_type) (x : ModelClient.mo_obj)
      (path : string) (w : world) :
  ModelClient.path_of t = Ok path ->
  posts (snd (post_attempt t x w)) = posts w
  \/ posts (snd (post_attempt t x w))
     = posts w ++ [(post_url path, ModelClient.jsonable_encoder x)].
Proof.
  intros Hp. unfold ModelClient.post_attempt, bind, lift,
    ModelClientBase._verify_session, ModelClientBase.session_post.
  destruct (_session w) as [s|]; [|now left]. rewrite Hp. right.
  destruct (closed s w); [reflexivity|].
  destruct (http_post _ _ _) as [e|resp]; [reflexivity|].
  destruct (response_json resp) as [decoded|]; [|reflexivity].
  destruct (raise_for_status resp); [reflexivity|].
  destruct (py_in "description" decoded) as [[|]|]; try reflexivity.
  destruct (py_getitem decoded "description"); reflexivity.
Qed.

(** While an open session is held: after [k] attempts lost in the network
    (at most six) the next one is answered, and
    [_post_single_to_backend] returns the body of that answer, having
    issued [k + 1] POSTs and waited the first [k] of the delays 2, 4, 8,
    16, 32, 64. *)
Theorem retry_recovers (t : ModelClient.mo_type) (x : ModelClient.mo_obj)
        (s : nat) (path : string) (resp : response) (j : json) (k : nat)
        (w : world) :
  k <= 6 ->
  _session w = Some s ->
  closed s w = false ->
  ModelClient.path_of t = Ok path ->
  (forall log,
      length log < length (posts w) + k ->
      exists e, http_post log (post_url path) (ModelClient.jsonable_encoder x)
                = inl e) ->
  (forall log,
      length log = length (posts w) + k ->
      http_post log (post_url path) (ModelClient.jsonable_encoder x)
      = inr resp) ->
  (status resp < 400)%Z ->
  body resp = Some j ->
  exists w',
    _post_single_to_backend t x w = (Ok j, w')
    /\ posts w'
       = posts w ++ repeat (post_url path, ModelClient.jsonable_encoder x) (S k)
    /\ sleeps w' = sleeps w ++ firstn k [2; 4; 8; 16; 32; 64]%Z.
Proof.
  intros Hk Hs Hc Hp Hlost Hanswered Hstatus Hbody.
  unfold ModelClient._post_single_to_backend, retry. change (7 - 1) with 6.
  assert (Hgen : forall i n remaining w0,
             i <= k -> i <= remaining ->
             _session w0 = Some s ->
             closed s w0 = false ->
             length (posts w0) = length (posts w) + (k - i) ->
             exists w',
               retry_loop backoff remaining n (post_attempt t x) w0 = (Ok j, w')
               /\ posts w'
                  = posts w0
                    ++ repeat (post_url path, ModelClient.jsonable_encoder x) (S i)
               /\ sleeps w' = sleeps w0 ++ map backoff (seq n i)).
  { induction i as [|i IH]; intros n remaining w0 Hik Hir Hs0 Hc0 Hlen.
    - exists (log_post (post_url path) (ModelClient.jsonable_encoder x) w0).
      assert (Hatt : post_attempt t x w0
                = (Ok j, log_post (post_url path)
                           (ModelClient.jsonable_encoder x) w0)).
      { eapply post_attempt_accepted; eauto. apply Hanswered. lia. }
      destruct remaining; simpl; rewrite Hatt; simpl; rewrite app_nil_r; auto.
    - destruct remaining as [|remaining]; [lia|].
      destruct (Hlost (posts w0)) as [e He]; [lia|].
      simpl. rewrite (post_attempt_network_failure http_post _base_url force
                        t x w0 s path e Hs0 Hc0 Hp He).
      destruct (IH (S n) remaining
                  (log_sleep (backoff n)
                     (log_post (post_url path)
                        (ModelClient.jsonable_encoder x) w0)))
        as (w' & -> & Hposts & Hsleeps); try lia; auto.
      { simpl. rewrite length_app. simpl. lia. }
      exists w'. simpl in Hposts, Hsleeps.
      rewrite Hposts, Hsleeps, <- !app_assoc. auto. }
  destruct (Hgen k 1 6 w) as (w' & Hrun & Hposts & Hsleeps); auto; try lia.
  exists w'. split; [exact Hrun|]. split; [exact Hposts|].
  rewrite Hsleeps. f_equal.
  do 7 (destruct k as [|k]; [reflexivity|]). lia.
Qed.


(** Whatever happens, one call of [_post_single_to_backend] sends one and
    the same request, the object to the URL of its class, at most seven
    times, and nothing else. *)
Theorem single_post_repeats_one_request (t : ModelClient.mo_type)
        (x : ModelClient.mo_obj) (path : string) (w : world) :
  ModelClient.path_of t = Ok path ->
  exists j,
    j <= 7
    /\ posts (snd (_post_single_to_backend t x w))
       = posts w ++ repeat (post_url path, ModelClient.jsonable_encoder x) j.
Proof.
  intros Hp. unfold ModelClient._post_single_to_backend, retry.
  change (7 - 1) with 6.
  apply retry_loop_requests. intros w0. now apply post_attempt_request.
Qed.

(** The body of the answer is decoded before the status is looked at.
    While an open session is held, an answer that is not served as JSON
    makes the attempt raise aiohttp's [ContentTypeError], which carries
    the status, whatever the status; an answer served as JSON whose text
    does not decode makes it raise the decoding error, whatever the
    status; and an error answer whose JSON body is null, a boolean or a
    number makes it raise a [TypeError] in place of the response error. *)
Theorem body_is_decoded_before_status (t : ModelClient.mo_type)
        (x : ModelClient.mo_obj) (s : nat) (path : string) (resp : response)
        (w : world) :
  _session w = Some s ->
  closed s w = false ->
  ModelClient.path_of t = Ok path ->
  http_post (posts w) (post_url path) (ModelClient.jsonable_encoder x)
  = inr resp ->
  (forall content_type,
      served resp = NotJson content_type ->
      post_attempt t x w
      = (Err (ContentTypeError (status resp)
                (String.append
                   "Attempt to decode JSON with unexpected mimetype: "
                   content_type)),
         log_post (post_url path) (ModelClient.jsonable_encoder x) w))
  /\ (served resp = BadJson ->
      post_attempt t x w
      = (Err JSONDecodeError,
         log_post (post_url path) (ModelClient.jsonable_encoder x) w))
  /\ ((400 <= status resp)%Z ->
      (body resp = Some JNull \/ (exists b, body resp = Some (JBool b))
       \/ exists z, body resp = Some (JNum z)) ->
      exists msg,
        post_attempt t x w
        = (Err (TypeError msg),
           log_post (post_url path) (ModelClient.jsonable_encoder x) w)).
Proof.
  intros Hs Hc Hp Hb. unfold ModelClient.post_attempt, bind, lift,
    ModelClientBase._verify_session.
  rewrite Hs, Hp, (session_post_open http_post s _ _ w Hc), Hb.
  unfold response_json, body. split; [|split].
  - intros content_type ->. reflexivity.
  - intros ->. reflexivity.
  - intros Hstatus Hbody. unfold raise_for_status.
    destruct (Z.leb_spec 400 (status resp)); [|lia].
    destruct (served resp) as [value| |];
      try (destruct Hbody as [Hj | [[b Hj] | [z Hj]]]; discriminate Hj).
    destruct Hbody as [Hj | [[b Hj] | [z Hj]]]; injection Hj as ->;
      eexists; reflexivity.
Qed.

End SingleObjectEdges.

Section Pipeline.
Variable http_post : list (string * json) -> string -> json -> exn + response.
Variable http_get : list string -> string -> exn + response.
Variable completion_order :
  list (result (list json)) -> list (result (list json)).
Variable _base_url : string.
Variable _chunk_size : Z.
Variable force : bool.

Local Abbreviation probe := (ModelClientBase.probe http_get).
Local Abbreviation check_endpoint := (ModelClientBase.check_endpoint http_get).
Local Abbreviation _post_single_to_backend :=
  (ModelClient._post_single_to_backend http_post _base_url force).
Local Abbreviation in_path_map :=
  (ModelClientBase.in_path_map ModelClient.mo_type_eqb
     (ModelClient._get_path_map)).
Local Abbreviation load_mo_objs :=
  (ModelClient.load_mo_objs http_post completion_order _base_url _chunk_size
     force).
Local Abbreviation context := (ModelClient.context http_get _base_url).
Local Abbreviation version_url := (String.append _base_url "/version/").

(** The backend answers every POST with a JSON body and a status below
    400. *)
Local Abbreviation backend_accepts :=
  (forall log url payload,
      exists resp j,
        http_post log url payload = inr resp
        /\ (status resp < 400)%Z /\ body resp = Some j).

(** The backend answers every GET with a JSON body that has the marker of
    the health probe. *)
Local Abbreviation backend_is_healthy :=
  (forall log url,
      exists resp j,
        http_get log url = inr resp
        /\ (status resp < 400)%Z /\ body resp = Some j
        /\ py_in "mo_version" j = Ok true).

(** The MO client probes one endpoint. *)
Lemma mo_check_if_server_online (attempts : nat) (delay : Z) (s : nat)
      (w : world) :
  _session w = Some s ->
  ModelClientBase.__check_if_server_online http_get _base_url
    (ModelClient._get_healthcheck_tuples) attempts delay w
  = (let (r, w') := check_endpoint s attempts delay version_url "mo_version" w in
     (match r with Ok _ => Ok tt | Err e => Err e end, w')).
Proof.
  intros Hs. unfold ModelClientBase.__check_if_server_online, bind,
    ModelClientBase._verify_session, gather.
  rewrite Hs. cbn [ModelClient._get_healthcheck_tuples map fst snd run_all].
  destruct (check_endpoint s attempts delay version_url "mo_version" w)
    as [[[]|e] w']; reflexivity.
Qed.


(** While the version endpoint does not answer the probe, [context] gives
    up after 100 GETs and 100 delays of 1: it fails with "Unable to
    connect" whatever the body would have done, the body is not run
    (nothing is posted), the session is closed and the handle cleared. *)
Theorem context_aborts_when_backend_is_down {A} (body : M A) (w : world) :
  (forall session w0,
      is_ok (fst (probe session version_url "mo_version" w0)) = false) ->
  exists w',
    context body w = (Err (Exception "Unable to connect"), w')
    /\ _session w' = None
    /\ ~ In (created w) (open_sessions w')
    /\ posts w' = posts w
    /\ gets w' = gets w ++ repeat version_url 100
    /\ sleeps w' = sleeps w ++ repeat 1%Z 100.
Proof.
  intros Hdown.
  unfold ModelClient.context, ModelClientBase.context, open_session.
  set (w2 := set_session (Some (created w)) _).
  destruct (check_endpoint_exhausted http_get (created w) 1%Z version_url
              "mo_version" (Hdown (created w)) 100 w2)
    as (w3 & Hcheck & Hg & Hsl & Hp & _).
  unfold bind.
  rewrite (mo_check_if_server_online 100 1 (created w) w2 eq_refl), Hcheck.
  destruct (close_session_frame (created w) w3)
    as (_ & _ & Hposts & Hgets & Hsleeps & _).
  eexists. split; [reflexivity|].
  split; [reflexivity|]. split; [apply close_session_removes|].
  cbn [posts gets sleeps set_session].
  rewrite Hposts, Hgets, Hsleeps, Hp, Hg, Hsl. repeat split.
Qed.

(** A scope closes the connector of the client for good, so a client
    serves one scope: whatever the backend answers, entering [context]
    once more fails with "Unable to connect" after 100 probes that the
    closed session refused; its body is not run. *)
Theorem context_cannot_be_reentered {A B} (first : M A) (second : M B)
        (w : world) :
  (forall w0, tcp_connector (snd (first w0)) = tcp_connector w0) ->
  connector_closed (snd (context first w)) = true
  /\ exists w',
      context second (snd (context first w))
      = (Err (Exception "Unable to connect"), w')
      /\ _session w' = None
      /\ posts w' = posts (snd (context first w))
      /\ gets w' = gets (snd (context first w)) ++ repeat version_url 100
      /\ printed w'
         = printed (snd (context first w))
           ++ repeat (RuntimeError "Session is closed") 100.
Proof.
  intros Hfirst.
  assert (Hclosed : tcp_connector (snd (context first w)) = Closed).
  { unfold ModelClient.context, ModelClientBase.context, open_session.
    set (w2 := set_session (Some (created w)) _).
    assert (Hrun : tcp_connector
                     (snd ((ModelClientBase.__check_if_server_online http_get
                              _base_url (ModelClient._get_healthcheck_tuples)
                              100 1 ;; first) w2))
                   = tcp_connector w2).
    { unfold bind.
      pose proof (check_if_server_online_frame http_get _base_url
                    (ModelClient._get_healthcheck_tuples) tcp_connector
                    (fun _ _ => eq_refl) (fun _ _ => eq_refl)
                    (fun _ _ => eq_refl) 100 1%Z w2) as Hc.
      destruct (ModelClientBase.__check_if_server_online _ _ _ 100 1 w2)
        as [[u|e] w2']; simpl in Hc |- *; [|exact Hc].
      now rewrite Hfirst. }
    destruct (bind _ _ w2) as [r w3]. simpl in Hrun. cbn [snd].
    change (tcp_connector (set_session None (close_session (created w) w3)))
      with (tcp_connector (close_session (created w) w3)).
    unfold close_session, closed, open_sessions. rewrite Hrun.
    subst w2. cbn [tcp_connector set_session].
    destruct (tcp_connector w) as [live|]; cbn [existsb].
    - rewrite Nat.eqb_refl. reflexivity.
    - cbn [negb]. rewrite Hrun. reflexivity. }
  split; [unfold connector_closed; now rewrite Hclosed|].
  generalize dependent (snd (context first w)). intros w1 Hw1.
  unfold ModelClient.context, ModelClientBase.context, open_session.
  rewrite Hw1.
  set (w2 := set_session (Some (created w1)) _).
  assert (Hc2 : closed (created w1) w2 = true).
  { unfold closed, open_sessions. reflexivity. }
  destruct (check_endpoint_closed http_get (created w1) 1%Z version_url
              "mo_version" 100 w2 Hc2)
    as (w3 & Hcheck & Hg & Hpr & Hp & Hconn).
  unfold bind.
  rewrite (mo_check_if_server_online 100 1 (created w1) w2 eq_refl), Hcheck.
  destruct (close_session_frame (created w1) w3)
    as (_ & _ & Hposts & Hgets & _ & Hprinted & _).
  eexists. split; [reflexivity|]. split; [reflexivity|].
  cbn [posts gets printed set_session].
  rewrite Hposts, Hgets, Hprinted, Hp, Hg, Hpr. repeat split.
Qed.


End Pipeline.

(** ** [modelclient/mo.py]: the URL of an object *)

Section ObjectUrl.
Import ModelClient ModelClientMO.
Variable force : bool.

Local Abbreviation get_object_url := (ModelClientMO.get_object_url force).
Local Abbreviation facet_of obj :=
  (find (fun kv : string * string => String.eqb (fst kv) "facet_uuid")
        (dict obj)).

(** [get_object_url] finds a URL exactly for the objects whose class is one
    of the twelve classes of the routing tables, but for an engagement
    association that is to be edited, whose class is missing from the edit
    map, and for a facet class without a [facet_uuid]; for every other
    object, one of any other class included, it raises a [KeyError]. *)
Theorem get_object_url_resolves (obj : py_obj) (edit : bool) :
  (is_ok (get_object_url obj edit) = true
   <-> exists t,
       type_ obj = MO t
       /\ (t = FacetClass -> exists kv, facet_of obj = Some kv)
       /\ ~ (edit = true /\ t = EngagementAssociation))
  /\ (forall e, get_object_url obj edit = Err e -> exists key, e = KeyError key).
Proof.
  unfold ModelClientMO.get_object_url. split.
  - destruct (type_ obj) as [t|repr] eqn:Hclass.
    + destruct t, edit; cbn;
        try (split;
             [ intros _; eexists; split; [reflexivity|];
               split; [discriminate | intros [H1 H2]; discriminate]
             | reflexivity ]).
      * split; [discriminate|]. intros (t & Ht & _ & H). exfalso.
        injection Ht as <-. apply H. now split.
      * destruct (facet_of obj) as [kv|]; cbn.
        -- split; [|reflexivity]. intros _. eexists. split; [reflexivity|].
           split; [eauto|]. intros [_ H]. discriminate.
        -- split; [discriminate|]. intros (t & Ht & H & _).
           injection Ht as <-. destruct (H eq_refl). discriminate.
      * destruct (facet_of obj) as [kv|]; cbn.
        -- split; [|reflexivity]. intros _. eexists. split; [reflexivity|].
           split; [eauto|]. intros [H _]. discriminate.
        -- split; [discriminate|]. intros (t & Ht & H & _).
           injection Ht as <-. destruct (H eq_refl). discriminate.
    + cbn. split; [discriminate|]. intros (t & Ht & _). discriminate.
  - intros e. destruct (type_ obj) as [t|repr].
    + destruct t, edit; cbn; try discriminate;
        try (intros H; injection H as <-; eauto);
        destruct (facet_of obj) as [kv|]; cbn; try discriminate;
        intros H; injection H as <-; eauto.
    + cbn. intros H. injection H as <-. eauto.
Qed.

(** The URL of a facet class carries the facet of the object, for
    creating and for editing alike, followed by the force flag. *)
Theorem facet_class_url (obj : py_obj) (edit : bool) (kv : string * string) :
  type_ obj = MO FacetClass ->
  facet_of obj = Some kv ->
  get_object_url obj edit
  = Ok (String.append
          (String.append "/service/f/" (String.append (snd kv) "/"))
          (String.append "?force=" (if force then "1" else "0"))).
Proof.
  intros Hclass Hfacet. unfold ModelClientMO.get_object_url.
  rewrite Hclass. destruct edit; cbn; rewrite Hfacet; reflexivity.
Qed.

End ObjectUrl.

(** ** The further properties on concrete clients *)

Section FurtherScenarios.
Import ModelClient Scenario Faults.

Local Abbreviation load backend order chunk_size objs w :=
  (load_mo_objs backend order base_url chunk_size false objs false w).
Local Abbreviation post_one backend t x w :=
  (_post_single_to_backend backend base_url false t x w).


Lemma one_type_chunk_count_witness :
  exists chunks,
    ModelClientBase.chunk_groups 2
      (ModelClientBase.groups mo_class type_name
         [employee 1; employee 2; employee 3])
    = Ok [("Employee", chunks)]
    /\ length chunks = 2.
Proof.
  destruct (one_type_chunk_count mo_type mo_obj mo_class type_name 2%Z
              (employee 1) [employee 2; employee 3])
    as (chunks & Hcg & Hlen & _).
  - unfold maxsize. lia.
  - intros y [<-|[<-|[]]]; reflexivity.
  - exists chunks. split; [exact Hcg | exact Hlen].
Defined.

Lemma chunk_size_zero_uploads_nothing_witness :
  load accepting in_task_order 0%Z [employee 1; role 2] in_session
  = (Ok [], in_session).
Proof.
  apply (chunk_size_zero_uploads_nothing mo_type mo_obj mo_type_eqb mo_class
           type_name type_repr issubclass in_task_order 0%Z (_get_path_map)
           (_post_single_to_backend accepting base_url false)).
  reflexivity.
Defined.

Lemma negative_chunk_size_is_refused_witness :
  exists msg,
    load accepting in_task_order (-1)%Z [employee 1] in_session
    = (Err (ValueError msg), in_session).
Proof.
  apply (negative_chunk_size_is_refused mo_type mo_obj mo_type_eqb mo_class
           type_name type_repr issubclass in_task_order (-1)%Z (_get_path_map)
           (_post_single_to_backend accepting base_url false)).
  lia.
Defined.

Lemma oversized_chunk_size_is_refused_witness :
  exists msg,
    load accepting in_task_order (2 ^ 63)%Z [employee 1] in_session
    = (Err (ValueError msg), in_session).
Proof.
  apply (oversized_chunk_size_is_refused mo_type mo_obj mo_type_eqb mo_class
           type_name type_repr issubclass in_task_order (2 ^ 63)%Z
           (_get_path_map)
           (_post_single_to_backend accepting base_url false)).
  unfold maxsize. lia.
Defined.


Lemma post_to_backend_error_provenance_witness :
  exists x w1 w2,
    In x [employee 1]
    /\ post_one rejecting Employee x w1
       = (Err (RetryError (ClientResponseError 422 (JStr "invalid uuid"))), w2).
Proof.
  destruct (post_to_backend_error_provenance mo_type mo_obj
              (_post_single_to_backend rejecting base_url false)
              Employee [employee 1] in_session
              (snd (_post_to_backend rejecting base_url false Employee
                      [employee 1] in_session))
              (RetryError (ClientResponseError 422 (JStr "invalid uuid"))))
    as [[Hnone _]|H].
  - vm_compute. reflexivity.
  - discriminate Hnone.
  - exact H.
Defined.


Lemma probe_succeeds_after_witness :
  exists w',
    ModelClientBase.check_endpoint (warming_up 3) 0 100 1
      "http://localhost:5000/version/" "mo_version" in_session
    = (Ok tt, w')
    /\ gets w' = repeat "http://localhost:5000/version/" 3
    /\ sleeps w' = [1; 1]%Z.
Proof.
  destruct (probe_succeeds_after (warming_up 3) 0 1%Z
              "http://localhost:5000/version/" "mo_version" 2 100 in_session)
    as (w' & Hcheck & Hgets & Hsleeps & _).
  - lia.
  - intros w0 _ H0.
    unfold ModelClientBase.probe, ModelClientBase.session_get, bind, warming_up.
    simpl in H0. destruct (closed 0 w0); [reflexivity|].
    destruct (Nat.ltb_spec (S (length (gets w0))) 3); [reflexivity | lia].
  - intros w0 Hc0 H0.
    unfold ModelClientBase.probe, ModelClientBase.session_get, bind, warming_up.
    unfold closed, open_sessions. rewrite Hc0. simpl in H0. cbn [existsb negb
      in_session tcp_connector Nat.eqb orb].
    destruct (Nat.ltb_spec (S (length (gets w0))) 3); [lia | reflexivity].
  - exists w'. split; [exact Hcheck|]. split; [exact Hgets | exact Hsleeps].
Defined.

Lemma context_aborts_when_backend_is_down_witness :
  exists w',
    context down base_url
      (fun w => load accepting in_task_order 100%Z [employee 1] w) no_session
    = (Err (Exception "Unable to connect"), w')
    /\ _session w' = None
    /\ posts w' = []
    /\ length (gets w') = 100.
Proof.
  destruct (context_aborts_when_backend_is_down down base_url
              (fun w => load accepting in_task_order 100%Z [employee 1] w)
              no_session)
    as (w' & Hrun & Hsession & _ & Hposts & Hgets & _).
  - intros session w0.
    unfold ModelClientBase.probe, ModelClientBase.session_get, bind.
    destruct (closed session w0); reflexivity.
  - exists w'. split; [exact Hrun|]. split; [exact Hsession|].
    split; [exact Hposts|]. rewrite Hgets. apply repeat_length.
Defined.

Lemma context_cannot_be_reentered_witness :
  exists w',
    context healthy base_url
      (fun w => load accepting in_task_order 100%Z [employee 2] w)
      (snd (context healthy base_url
              (fun w => load accepting in_task_order 100%Z [employee 1] w)
              no_session))
    = (Err (Exception "Unable to connect"), w')
    /\ length (posts w') = 1.
Proof.
  destruct (context_cannot_be_reentered healthy base_url
              (fun w => load accepting in_task_order 100%Z [employee 1] w)
              (fun w => load accepting in_task_order 100%Z [employee 2] w)
              no_session)
    as (_ & w' & Hrun & _ & Hposts & _).
  - intros w0.
    apply (load_keeps_connector accepting in_task_order base_url 100%Z false).
  - exists w'. split; [exact Hrun|]. rewrite Hposts. vm_compute. reflexivity.
Defined.

Lemma retry_recovers_witness :
  exists w',
    post_one (flaky 2) Employee (employee 1) in_session
    = (Ok (JObj [("n", JNum 1)]), w')
    /\ length (posts w') = 3
    /\ sleeps w' = [2; 4]%Z.
Proof.
  destruct (retry_recovers (flaky 2) base_url false Employee (employee 1) 0
              "/service/e/create"
              (mkResponse 200 "OK" (Json (JObj [("n", JNum 1)])))
              (JObj [("n", JNum 1)]) 2 in_session)
    as (w' & Hrun & Hposts & Hsleeps).
  - lia.
  - reflexivity.
  - reflexivity.
  - reflexivity.
  - intros log Hlog. simpl in Hlog. unfold flaky.
    destruct (Nat.ltb_spec (length log) 2); [eauto | lia].
  - intros log Hlog. simpl in Hlog. unfold flaky.
    destruct (Nat.ltb_spec (length log) 2); [lia | reflexivity].
  - simpl. lia.
  - reflexivity.
  - exists w'. split; [exact Hrun|]. rewrite Hposts.
    split; [reflexivity | exact Hsleeps].
Defined.


Lemma single_post_repeats_one_request_witness :
  exists j,
    j <= 7
    /\ posts (snd (post_one rejecting Employee (employee 1) in_session))
       = repeat ("http://localhost:5000/service/e/create?force=0",
                 JObj [("n", JNum 1)]) j.
Proof.
  apply (single_post_repeats_one_request rejecting base_url false Employee
           (employee 1) "/service/e/create" in_session).
  reflexivity.
Defined.

Lemma body_is_decoded_before_status_witness :
  fst (post_attempt gateway_page base_url false Employee (employee 1)
         in_session)
  = Err (ContentTypeError 502
           "Attempt to decode JSON with unexpected mimetype: text/html").
Proof.
  destruct (body_is_decoded_before_status gateway_page base_url false Employee
              (employee 1) 0 "/service/e/create"
              (mkResponse 502 "Bad Gateway" (NotJson "text/html")) in_session)
    as [H _].
  - reflexivity.
  - reflexivity.
  - reflexivity.
  - reflexivity.
  - rewrite (H "text/html" eq_refl). reflexivity.
Defined.


Lemma get_object_url_resolves_witness :
  is_ok (ModelClientMO.get_object_url false engagement_association true)
  = false
  /\ is_ok (ModelClientMO.get_object_url false engagement_association false)
     = true
  /\ exists key,
      ModelClientMO.get_object_url false special_employee false
      = Err (KeyError key).
Proof.
  split; [|split].
  - destruct (is_ok _) eqn:E; [|reflexivity].
    apply (proj1 (get_object_url_resolves false engagement_association true))
      in E as (t & Ht & _ & E).
    exfalso. apply E. injection Ht as <-. split; reflexivity.
  - apply (proj1 (get_object_url_resolves false engagement_association false)).
    exists EngagementAssociation. split; [reflexivity|]. split.
    + discriminate.
    + intros [H _]. discriminate.
  - destruct (ModelClientMO.get_object_url false special_employee false)
      as [url|e] eqn:E; [discriminate E|].
    destruct (proj2 (get_object_url_resolves false special_employee false) e E)
      as [key ->].
    exists key. reflexivity.
Defined.

Lemma facet_class_url_witness :
  ModelClientMO.get_object_url true
    (facet_class "182df2a8-2594-4a3f-9103-a9894d5e0c36") false
  = Ok "/service/f/182df2a8-2594-4a3f-9103-a9894d5e0c36/?force=1".
Proof.
  apply (facet_class_url true
           (facet_class "182df2a8-2594-4a3f-9103-a9894d5e0c36") false
           ("facet_uuid", "182df2a8-2594-4a3f-9103-a9894d5e0c36")).
  - reflexivity.
  - reflexivity.
Defined.

End FurtherScenarios.
